(** * reddit-tommy: the collection-and-aggregation pipeline of [main.py]

    A shallow embedding of [src/main.py] and the properties of its
    components: the comment flattener ([get_submission_comments]), the post
    collector ([get_today_posts]), the digest formatter
    ([prepare_posts_for_summary]), the summarizer ([summarize_with_openai]),
    the aggregation pass ([collect_summaries_in_folder]) and the per-source
    run ([run]) with the loop of [main] that drives it. *)

From Stdlib Require Import ZArith List String Ascii QArith DecimalString Lia.
From stdpp Require Import gmap list sorting.
Import ListNotations.

Local Open Scope Z_scope.
Local Open Scope nat_scope.
Local Open Scope list_scope.

(** ** Python values used by the program *)

Module Py.

(** A Python [str] is a sequence of Unicode code points; [len] counts code
    points and slicing cuts between them. *)
Definition char := N.
Definition str := list char.

(** An ASCII literal of the source as a [str]. *)
Definition lit (s : string) : str := map N_of_ascii (list_ascii_of_string s).

(** ["\n"] *)
Definition LF : char := 10%N.
(** ["\r"] *)
Definition CR : char := 13%N.
(** [" "] *)
Definition SP : char := 32%N.

(** [str(n)] for an [int]. *)
Definition str_of_int (z : Z) : str := lit (NilZero.string_of_int (Z.to_int z)).

(** [s[:n]] for [n >= 0]: never fails, returns all of [s] when it is short. *)
Definition slice_to (n : nat) (s : str) : str := firstn n s.

(** [l[1:]]: never fails, the empty list stays empty. *)
Definition slice_from1 {A} (l : list A) : list A := skipn 1 l.

(** [sep.join(parts)] *)
Fixpoint join (sep : str) (parts : list str) : str :=
  match parts with
  | [] => []
  | [p] => p
  | p :: rest => p ++ sep ++ join sep rest
  end.

(** The line boundaries [str.splitlines] recognises: \n \v \f \r, the
    separators \x1c \x1d \x1e, NEL \x85, and U+2028, U+2029. *)
Definition is_linebreak (c : char) : bool :=
  existsb (N.eqb c) [10; 11; 12; 13; 28; 29; 30; 133; 8232; 8233]%N.

(** The characters [str.strip()] removes ([str.isspace]). *)
Definition is_space (c : char) : bool :=
  (((9 <=? c) && (c <=? 13)) || ((28 <=? c) && (c <=? 32))
   || existsb (N.eqb c) [133; 160; 5760; 8232; 8233; 8239; 8287; 12288]
   || ((8192 <=? c) && (c <=? 8202)))%N.

(** [s.splitlines()]: [cur] is the line being read, most recent character
    first.  "\r\n" is one boundary; the boundaries are dropped; a line is
    added at the end of the text only when characters follow the last
    boundary. *)
Fixpoint splitlines_from (cur : str) (s : str) : list str :=
  match s with
  | [] => match cur with [] => [] | _ => [rev cur] end
  | c :: rest =>
      if is_linebreak c then
        match rest with
        | d :: rest' =>
            if (c =? CR)%N && (d =? LF)%N
            then rev cur :: splitlines_from [] rest'
            else rev cur :: splitlines_from [] rest
        | [] => rev cur :: splitlines_from [] rest
        end
      else splitlines_from (c :: cur) rest
  end.

Definition splitlines (s : str) : list str := splitlines_from [] s.

Fixpoint lstrip (s : str) : str :=
  match s with
  | c :: rest => if is_space c then lstrip rest else s
  | [] => []
  end.

Definition rstrip (s : str) : str := rev (lstrip (rev s)).

(** [s.strip()] *)
Definition strip (s : str) : str := rstrip (lstrip s).

(** Truth value of a [str]: the empty string is false. *)
Definition truthy_str (s : str) : bool :=
  match s with [] => false | _ => true end.

(** [enumerate(l, start)] *)
Fixpoint enumerate {A} (l : list A) (start : nat) : list (nat * A) :=
  match l with
  | [] => []
  | x :: rest => (start, x) :: enumerate rest (S start)
  end.

(** [a == b] on [str] *)
Fixpoint str_eqb (a b : str) : bool :=
  match a, b with
  | [], [] => true
  | x :: a', y :: b' => (x =? y)%N && str_eqb a' b'
  | _, _ => false
  end.

(** [a <= b] on [str]: lexicographic on code points. *)
Fixpoint str_le (a b : str) : bool :=
  match a, b with
  | [], _ => true
  | _ :: _, [] => false
  | x :: a', y :: b' => (x <? y)%N || ((x =? y)%N && str_le a' b')
  end.

(** [sorted] is a stable ascending sort; insertion from the right keeps an
    element in front of the equal ones that followed it. *)
Section Sorted.
Context {A : Type} (le : A -> A -> bool).

Fixpoint insert_by (x : A) (l : list A) : list A :=
  match l with
  | [] => [x]
  | y :: rest => if le x y then x :: l else y :: insert_by x rest
  end.

Fixpoint sorted (l : list A) : list A :=
  match l with
  | [] => []
  | x :: rest => insert_by x (sorted rest)
  end.

(** [sorted(l, reverse=True)]: CPython reverses the list, sorts it stably
    in ascending order and reverses the result, which keeps the input
    order among equal elements. *)
Definition sorted_reverse (l : list A) : list A := rev (sorted (rev l)).
End Sorted.

(** The comparison [sorted(..., key=key)] makes, for integer keys. *)
Definition le_on {A} (key : A -> Z) (x y : A) : bool := (key x <=? key y)%Z.

(** [s.startswith(prefix)] and [s.endswith(suffix)] *)
Fixpoint startswith (prefix s : str) : bool :=
  match prefix, s with
  | [], _ => true
  | _ :: _, [] => false
  | x :: p', y :: s' => (x =? y)%N && startswith p' s'
  end.

Definition endswith (suffix s : str) : bool := startswith (rev suffix) (rev s).

(** [os.path.join(a, b)] on POSIX: an absolute [b] replaces [a]; no
    separator is added after an empty [a] or one that ends with it. *)
Definition SEP : char := 47%N.

Definition path_join (a b : str) : str :=
  if startswith [SEP] b then b
  else if negb (truthy_str a) || endswith [SEP] a then a ++ b
  else a ++ [SEP] ++ b.

End Py.
Import Py.


(** ** Constants of [main.py] *)

Definition SUBREDDIT_MAX_POSTS : nat := 8.
Definition POST_MAX_COMMENTS : nat := 21.
Definition OPENAI_MODEL : str := lit "gpt-5-mini".
Definition OPENAI_MAX_COMPLETION_TOKENS : nat := 4000.

Definition OPENAI_MESSAGE_SYSTEM : str :=
  [LF] ++ lit "You are a financial analyst. " ++ [LF].

Definition OPENAI_MESSAGE_USER : str :=
  [LF]
  ++ lit "Summarize this into numbered list with a few key items. No need to list everything. " ++ [LF]
  ++ lit "Add new lines between list items. Use notation like 1) for item start. " ++ [LF]
  ++ lit "Find best stock that will go up very soon. This is your main goal. " ++ [LF]
  ++ lit "Find main market sentiments." ++ [LF]
  ++ lit "Don't use company names, use stock names instead. " ++ [LF]
  ++ lit "For stock names use notation like $TSLA with a $. " ++ [LF]
  ++ lit "At the end of every list item append without new lines:" ++ [LF]
  ++ lit " - give related Reddit post links, format: '" ++ [128483; 65039]%N
  ++ lit "LINK' " ++ [LF]
  ++ lit " - give Public stock links, format: '" ++ [128200]%N
  ++ lit "https://public.com/stocks/STOCK_NAME'.  " ++ [LF]
  ++ lit "No markdown. " ++ [LF]
  ++ lit "DO NOT GO OVER 3000 characters:" ++ [LF; LF; LF].

(** ** Data *)

(** An exception (an instance of [Exception]); [exc_str e] is [str(e)]. *)
Record Exception := { exc_str : str }.

(** One element of [submission.comments.list()], by what
    [getattr(c, 'body', None)] does on it: a comment gives its body, an
    object without the attribute (an unresolved "more comments" node) gives
    [None], and the access itself can raise. *)
Inductive CommentNode :=
  | WithBody (body : str)
  | NoBody
  | Failing (e : Exception).

(** The comment tree of a submission as the forum client presents it:
    whether [replace_more] raises, and what [list()] returns after it. *)
Record CommentForest := {
  replace_more_raises : option Exception;
  list_result : Exception + list CommentNode
}.

(** A submission as yielded by [subreddit.new]. *)
Record Submission := {
  sub_title : str;
  sub_score : Z;
  sub_num_comments : Z;
  sub_selftext : str;
  sub_shortlink : str;
  sub_created_utc : Q;
  sub_comments : CommentForest
}.

(** The dict [get_today_posts] builds for a submission; every key is
    always present, so the dict is a record. *)
Record Post := {
  title : str;
  score : Z;
  num_comments : Z;
  selftext : str;
  shortlink : str;
  created_utc : Q;
  comments : list str
}.

(** What iterating [subreddit.new(limit=...)] does: the submissions it
    yields and the exception that ends the iteration, if one does. *)
Record Listing := {
  yielded : list Submission;
  broke : option Exception
}.

(** The clock of the host: the POSIX time of the reading and the offset
    from UTC that the local time zone of the process applies, both in
    seconds.  Floats are modelled by the rationals they denote. *)
Record Clock := {
  posix_now : Q;
  local_utcoffset : Q
}.

(** A naive [datetime]: the seconds its wall-clock fields count from
    1970-01-01T00:00:00, with no time zone attached. *)
Record naive_datetime := { wall_seconds : Q }.

(** [datetime.utcnow()]: the UTC wall clock, as a naive value. *)
Definition utcnow (c : Clock) : naive_datetime :=
  {| wall_seconds := posix_now c |}.

(** [dt - timedelta(hours=h)] *)
Definition minus_hours (dt : naive_datetime) (h : Z) : naive_datetime :=
  {| wall_seconds := (wall_seconds dt - inject_Z (3600 * h))%Q |}.

(** [dt.timestamp()] of a naive value: Python reads its fields as local
    time, so the POSIX time is the wall-clock count less the local offset. *)
Definition timestamp (c : Clock) (dt : naive_datetime) : Q :=
  (wall_seconds dt - local_utcoffset c)%Q.

(** The chat completion the backend returns: the [message.content] of each
    choice, which may be [None]. *)
Record Response := { choices : list (option str) }.

(** An entry of the output folder read with [open(path).read()]. *)
Inductive FileRead :=
  | Readable (content : str)
  | Unreadable (e : Exception).

(** The files of a folder, in the order the operating system lists them. *)
Definition Directory := list (str * FileRead).

(** ** State, exceptions and the external collaborators *)

(** The state a call runs in: the outside world [W] (forum, inference
    backend, file system, notification channel, clock) and what the program
    has printed so far. *)
Record State (W : Type) := mkState { world : W; stdout : list str }.
Arguments mkState {W}.
Arguments world {W}.
Arguments stdout {W}.

(** A call either returns a value or raises an exception, and leaves a
    state behind in both cases. *)
Definition M (W A : Type) : Type := State W -> State W * (Exception + A).

Definition ret {W A} (a : A) : M W A := fun st => (st, inr a).

Definition raise {W A} (e : Exception) : M W A := fun st => (st, inl e).

Definition bind {W A B} (c : M W A) (k : A -> M W B) : M W B :=
  fun st =>
    match c st with
    | (st', inr a) => k a st'
    | (st', inl e) => (st', inl e)
    end.

(** [try: body / except Exception as e: handler e] *)
Definition try_except {W A} (body : M W A) (handler : Exception -> M W A)
  : M W A :=
  fun st =>
    match body st with
    | (st', inr a) => (st', inr a)
    | (st', inl e) => handler e st'
    end.

Notation "x <- c ;; k" := (bind c (fun x => k))
  (at level 62, c at next level, right associativity).
Notation "c ;;; k" := (bind c (fun _ => k))
  (at level 62, right associativity).

(** [print(line)] *)
Definition printed {W} (line : str) (st : State W) : State W :=
  {| world := world st; stdout := stdout st ++ [line] |}.

Definition print {W} (line : str) : M W unit :=
  fun st => (printed line st, inr tt).

(** A call to a collaborator: may change the world and may raise. *)
Definition call {W A} (op : W -> W * (Exception + A)) : M W A :=
  fun st =>
    let '(w', r) := op (world st) in
    ({| world := w'; stdout := stdout st |}, r).

(** The external collaborators of the pipeline. *)
Class Collaborators (W : Type) := {
  (** iterating [reddit.subreddit(name).new(limit=limit)] *)
  subreddit_new : str -> nat -> W -> W * Listing;
  (** the host clock *)
  clock : W -> Clock;
  (** [openai_client.chat.completions.create(model, messages=[system, user],
      max_completion_tokens)] *)
  chat_completions_create :
    str -> str -> str -> nat -> W -> W * (Exception + Response);
  (** [open(path, "w", encoding="utf-8")] and [f.write(text)] *)
  open_write : str -> str -> W -> W * (Exception + unit);
  (** the [requests.post] of [send_telegram_message], by the text sent *)
  telegram_post : str -> W -> W * (Exception + unit)
}.

(** ** [send_telegram_message] *)

Definition send_telegram_message {W} `{Collaborators W} (text : str)
  : M W unit :=
  call (telegram_post text).

(** ** [RedditSummarizer] *)

Record RedditSummarizer := { output_dir : str }.

(** *** [get_submission_comments] *)

(** The loop over [submission.comments.list()[1:]]; an exception raised in
    it ends the loop with what was collected ([except Exception: pass]). *)
Fixpoint collect_comments (nodes : list CommentNode) (comments : list str)
  : list str :=
  match nodes with
  | [] => comments
  | c :: rest =>
      match c with
      | Failing _ => comments
      | NoBody => collect_comments rest comments
      | WithBody body =>
          if truthy_str body then
            let b := strip (join [SP] (splitlines body)) in
            let comments := comments ++ [b] in
            if POST_MAX_COMMENTS <=? length comments then comments
            else collect_comments rest comments
          else collect_comments rest comments
      end
  end.

Definition get_submission_comments (submission_comments : CommentForest)
  : list str :=
  match replace_more_raises submission_comments with
  | Some _ => []
  | None =>
      match list_result submission_comments with
      | inl _ => []
      | inr nodes => collect_comments (slice_from1 nodes) []
      end
  end.

(** *** [get_today_posts] *)

Definition post_of_submission (submission : Submission) : Post :=
  {| title := sub_title submission;
     score := sub_score submission;
     num_comments := sub_num_comments submission;
     selftext := if truthy_str (sub_selftext submission)
                 then slice_to 1000 (sub_selftext submission) else [];
     shortlink := sub_shortlink submission;
     created_utc := sub_created_utc submission;
     comments := get_submission_comments (sub_comments submission) |}.

(** The [for submission in subreddit.new(...)] loop; the [Subreddit]
    object prints as its name.  Resolving the comment tree of a kept
    submission calls the forum again: the outcome of those calls is held in
    the submission, and the world keeps no trace of them. *)
Fixpoint fetch_posts {W} (subreddit : str) (cutoff_ts : Q)
    (submissions : list Submission) (posts : list Post) : M W (list Post) :=
  match submissions with
  | [] => ret posts
  | submission :: rest =>
      print (lit "Fetching " ++ subreddit ++ lit " post #"
             ++ str_of_int (Z.of_nat (length posts + 1)) ++ lit "...") ;;;
      if Qle_bool cutoff_ts (sub_created_utc submission)
      then fetch_posts subreddit cutoff_ts rest
             (posts ++ [post_of_submission submission])
      else fetch_posts subreddit cutoff_ts rest posts
  end.

Definition read_clock {W} `{Collaborators W} : M W Clock :=
  fun st => (st, inr (clock (world st))).

Definition get_today_posts {W} `{Collaborators W} (subreddit : str)
  : M W (list Post) :=
  c <- read_clock ;;
  let cutoff_ts := timestamp c (minus_hours (utcnow c) 24) in
  listing <- call (fun w =>
    let '(w', l) := subreddit_new subreddit SUBREDDIT_MAX_POSTS w in
    (w', inr l)) ;;
  posts <- fetch_posts subreddit cutoff_ts (yielded listing) [] ;;
  match broke listing with
  | Some e => raise e
  | None => ret posts
  end.

(** *** [prepare_posts_for_summary] *)

(** One turn of the loop over [enumerate(posts_sorted, 1)]: what it adds
    to [summary_text]. *)
Definition post_block (summary_text : str) (ip : nat * Post) : str :=
  let '(i, post) := ip in
  let summary_text := summary_text ++ lit "~~~POST #"
    ++ str_of_int (Z.of_nat i) ++ lit " START" ++ [LF] in
  let summary_text := summary_text ++ lit "Title: " ++ title post ++ [LF] in
  let summary_text := summary_text ++ lit "Score: "
    ++ str_of_int (score post) ++ [LF] in
  let summary_text := summary_text ++ lit "Comments: "
    ++ str_of_int (num_comments post) ++ [LF] in
  let summary_text := summary_text ++ lit "Link: " ++ shortlink post ++ [LF] in
  let summary_text :=
    if truthy_str (selftext post)
    then summary_text ++ lit "Post content: "
           ++ slice_to 1500 (selftext post) ++ lit "..." ++ [LF; LF]
    else summary_text in
  let comments := comments post in
  let summary_text :=
    match comments with
    | [] => summary_text
    | _ =>
        let combined := join ([SP; LF] ++ lit "- ") comments in
        let max_chars := 3000 in
        let combined :=
          if max_chars <? length combined
          then slice_to max_chars combined ++ lit "..."
          else combined in
        summary_text ++ lit "Comments:" ++ [LF] ++ lit "- " ++ combined ++ [LF]
    end in
  summary_text ++ lit "~~~POST #" ++ str_of_int (Z.of_nat i)
    ++ lit " END" ++ [LF; LF].

Definition prepare_posts_for_summary (subreddit : str) (posts : list Post)
  : str :=
  match posts with
  | [] => lit "No posts found for today."
  | _ =>
      let posts_sorted := sorted_reverse (le_on score) posts in
      let summary_text :=
        lit "Today's Reddit r/" ++ subreddit ++ lit " posts:" ++ [LF; LF] in
      fold_left post_block (enumerate posts_sorted 1) summary_text
  end.

(** *** [summarize_with_openai] *)

(** [str(e)] of the [IndexError] that [choices[0]] raises on no choice. *)
Definition IndexError : Exception :=
  {| exc_str := lit "list index out of range" |}.

(** The value returned is [message.content], a [str] or [None]. *)
Definition summarize_with_openai {W} `{Collaborators W} (text : str)
  : M W (option str) :=
  print (lit "Generating summary with OpenAI...") ;;;
  try_except
    (response <- call (chat_completions_create OPENAI_MODEL
                         OPENAI_MESSAGE_SYSTEM (OPENAI_MESSAGE_USER ++ text)
                         OPENAI_MAX_COMPLETION_TOKENS) ;;
     match choices response with
     | content :: _ => ret content
     | [] => raise IndexError
     end)
    (fun e => ret (Some (lit "Error generating summary: " ++ exc_str e))).

(** *** [write_output_file] *)

Definition write_output_file {W} `{Collaborators W} (self : RedditSummarizer)
    (name text : str) : M W unit :=
  call (open_write (path_join (output_dir self) name) text).

(** *** [collect_summaries_in_folder] *)

(** [glob.glob(os.path.join(folder, "*-summary.txt"))] for a folder name
    without pattern characters: the paths of the entries whose name ends
    with the suffix and does not start with a dot, in listing order. *)
Definition is_summary_name (name : str) : bool :=
  negb (startswith (lit ".") name) && endswith (lit "-summary.txt") name.

Definition glob_summaries (folder : str) (dir : Directory) : list str :=
  map (path_join folder) (List.filter is_summary_name (map fst dir)).

Definition FileNotFoundError (path : str) : Exception :=
  {| exc_str := lit "[Errno 2] No such file or directory: '" ++ path
                ++ lit "'" |}.

(** [open(path, "r", encoding="utf-8")] and [f.read()] *)
Definition open_read (folder : str) (dir : Directory) (path : str)
  : Exception + str :=
  match List.find (fun entry => str_eqb (path_join folder (fst entry)) path)
          dir with
  | Some (_, Readable content) => inr content
  | Some (_, Unreadable e) => inl e
  | None => inl (FileNotFoundError path)
  end.

(** The loop over [paths]; a file that cannot be read is passed over. *)
Fixpoint read_chunks (folder : str) (dir : Directory) (paths : list str)
    (chunks : list str) : list str :=
  match paths with
  | [] => chunks
  | path :: rest =>
      match open_read folder dir path with
      | inr content => read_chunks folder dir rest (chunks ++ [strip content])
      | inl _ => read_chunks folder dir rest chunks
      end
  end.

Definition collect_summaries_in_folder (folder : str) (dir : Directory)
  : str :=
  let paths := sorted str_le (glob_summaries folder dir) in
  let chunks := read_chunks folder dir paths [] in
  join [LF; LF] (List.filter truthy_str chunks).

(** *** [run] *)

(** [str(e)] of the [TypeError] of [summary += None]. *)
Definition TypeError_concat_None : Exception :=
  {| exc_str := lit "can only concatenate str (not " ++ [34%N]
                ++ lit "NoneType" ++ [34%N] ++ lit ") to str" |}.

(** [a + b] where [a] is a [str] and [b] is a [str] or [None]. *)
Definition str_add {W} (a : str) (b : option str) : M W str :=
  match b with
  | Some s => ret (a ++ s)
  | None => raise TypeError_concat_None
  end.

(** The suite under [try:]; of [if True: ... else: ...] the first branch
    is the one that runs. *)
Definition run_try {W} `{Collaborators W} (self : RedditSummarizer)
    (subreddit : str) : M W str :=
  posts <- get_today_posts subreddit ;;
  let posts_text := prepare_posts_for_summary subreddit posts in
  let summary := [128202%N] ++ lit " TODAY'S r/" ++ subreddit
                 ++ lit " SUMMARY" ++ [LF; LF] in
  generated <- summarize_with_openai posts_text ;;
  summary <- str_add summary generated ;;
  write_output_file self (subreddit ++ lit ".txt") posts_text ;;;
  write_output_file self (subreddit ++ lit "-summary.txt") summary ;;;
  print (repeat 61%N 50) ;;;
  send_telegram_message summary ;;;
  ret summary.

(** The suite under [except Exception as e:]. *)
Definition run_except {W} (e : Exception) : M W str :=
  print (lit "Error: " ++ exc_str e) ;;; ret [].

(** The two lines printed before the [try]. *)
Definition run_banner {W} (subreddit : str) : M W unit :=
  print ([128640%N] ++ lit " Starting r/" ++ subreddit
         ++ lit " Today's Summary") ;;;
  print (repeat 61%N 50).

Definition run {W} `{Collaborators W} (self : RedditSummarizer)
    (subreddit : str) : M W str :=
  run_banner subreddit ;;;
  try_except (run_try self subreddit) run_except.

(** ** The loop of [main] over the sources *)

Definition SOURCES : list str :=
  [lit "wallstreetbets"; lit "stocks"; lit "investing"; lit "swingtrading";
   lit "StockMarket"; lit "Economics"].

(** [for x in l: body(x)]: an exception raised by a turn ends the loop. *)
Fixpoint for_each {W A} (body : A -> M W unit) (l : list A) : M W unit :=
  match l with
  | [] => ret tt
  | x :: rest => body x ;;; for_each body rest
  end.

(** [for sub in [...]: summarizer.run(sub)] *)
Definition run_sources {W} `{Collaborators W} (summarizer : RedditSummarizer)
    (sources : list str) : M W unit :=
  for_each (fun sub => run summarizer sub ;;; ret tt) sources.

Definition main_loop {W} `{Collaborators W} (summarizer : RedditSummarizer)
  : M W unit :=
  run_sources summarizer SOURCES.

(** ** [prepare_posts_for_summary] on the object store

    The caller passes a reference to a list object whose items are
    references to dict objects; the same function, reading through the
    store and allocating what it builds. *)

Definition loc := positive.

Inductive Obj :=
  | ODict (post : Post)
  | OList (items : list loc).

Definition get_dict (h : gmap loc Obj) (l : loc) : option Post :=
  match h !! l with
  | Some (ODict post) => Some post
  | _ => None
  end.

Definition get_list (h : gmap loc Obj) (l : loc) : option (list loc) :=
  match h !! l with
  | Some (OList items) => Some items
  | _ => None
  end.

(** The loop over [enumerate(posts_sorted, 1)], each [post] read through
    its reference. *)
Fixpoint emit_blocks (h : gmap loc Obj) (ips : list (nat * loc))
    (summary_text : str) : option str :=
  match ips with
  | [] => Some summary_text
  | (i, l) :: rest =>
      post ← get_dict h l;
      emit_blocks h rest (post_block summary_text (i, post))
  end.

(** [None] stands for the exception an ill-typed store gives.  [sorted]
    reads the key of every item, then builds a new list object. *)
Definition prepare_posts_for_summary_store (subreddit : str) (posts : loc)
    (h : gmap loc Obj) : option (gmap loc Obj * str) :=
  items ← get_list h posts;
  match items with
  | [] => Some (h, lit "No posts found for today.")
  | _ =>
      keyed ← mapM (fun l => post ← get_dict h l; Some (l, score post)) items;
      let posts_sorted := fresh (dom h) in
      let h := <[posts_sorted := OList (map fst (sorted_reverse (le_on snd) keyed))]> h in
      let summary_text :=
        lit "Today's Reddit r/" ++ subreddit ++ lit " posts:" ++ [LF; LF] in
      sorted_items ← get_list h posts_sorted;
      text ← emit_blocks h (enumerate sorted_items 1) summary_text;
      Some (h, text)
  end.

(** ** Vocabulary of the statements *)

(** The header line of a digest. *)
Definition digest_header (subreddit : str) : str :=
  lit "Today's Reddit r/" ++ subreddit ++ lit " posts:" ++ [LF; LF].

(** The first five lines of a block and its last line. *)
Definition block_head (i : nat) (post : Post) : str :=
  lit "~~~POST #" ++ str_of_int (Z.of_nat i) ++ lit " START" ++ [LF]
  ++ lit "Title: " ++ title post ++ [LF]
  ++ lit "Score: " ++ str_of_int (score post) ++ [LF]
  ++ lit "Comments: " ++ str_of_int (num_comments post) ++ [LF]
  ++ lit "Link: " ++ shortlink post ++ [LF].

Definition block_end (i : nat) : str :=
  lit "~~~POST #" ++ str_of_int (Z.of_nat i) ++ lit " END" ++ [LF; LF].

(** The separator the comment bodies are joined with. *)
Definition comment_separator : str := [SP; LF] ++ lit "- ".

(** What the flattener makes of a comment body. *)
Definition flatten_body (body : str) : str :=
  strip (join [SP] (splitlines body)).

(** In the words of the specification: every line break of the text, a
    "\r\n" pair counting as one, replaced by a single space. *)
Fixpoint breaks_to_spaces (s : str) : str :=
  match s with
  | [] => []
  | c :: rest =>
      if is_linebreak c then
        match rest with
        | d :: rest' =>
            if (c =? CR)%N && (d =? LF)%N
            then SP :: breaks_to_spaces rest'
            else SP :: breaks_to_spaces rest
        | [] => [SP]
        end
      else c :: breaks_to_spaces rest
  end.

(** A text with nothing left to trim: it neither starts nor ends with a
    whitespace character. *)
Definition trimmed (s : str) : Prop :=
  (forall c rest, s = c :: rest -> is_space c = false)
  /\ (forall c front, s = front ++ [c] -> is_space c = false).

(** The nodes the traversal goes over: the flattened list without its
    first element (none when [list()] raises). *)
Definition traversed_nodes (forest : CommentForest) : list CommentNode :=
  match list_result forest with
  | inr nodes => slice_from1 nodes
  | inl _ => []
  end.

(** The bodies of the nodes that have a textual body. *)
Fixpoint bodies_of (nodes : list CommentNode) : list str :=
  match nodes with
  | [] => []
  | WithBody body :: rest =>
      if truthy_str body then body :: bodies_of rest else bodies_of rest
  | _ :: rest => bodies_of rest
  end.

(** The eligible items of a tree: the bodies left after dropping the first
    traversal element and every node without a textual body. *)
Definition eligible_bodies (forest : CommentForest) : list str :=
  bodies_of (traversed_nodes forest).

Definition is_failing (c : CommentNode) : bool :=
  match c with Failing _ => true | _ => false end.

(** Resolving or traversing the tree raises somewhere. *)
Definition traversal_fails (forest : CommentForest) : Prop :=
  replace_more_raises forest <> None
  \/ (exists e, list_result forest = inl e)
  \/ existsb is_failing (traversed_nodes forest) = true.

(** The text a run sends off once the backend has answered. *)
Definition summary_title (subreddit : str) : str :=
  [128202%N] ++ lit " TODAY'S r/" ++ subreddit ++ lit " SUMMARY" ++ [LF; LF].

(** The state a run is in once its two banner lines are printed. *)
Definition after_banner {W} (subreddit : str) (st : State W) : State W :=
  fst (run_banner subreddit st).

(** The state the [except] suite leaves: the error line is printed. *)
Definition after_error {W} (e : Exception) (st : State W) : State W :=
  printed (lit "Error: " ++ exc_str e) st.

(** The step of the [try] suite at which an exception [e] is raised,
    leaving the state [st'], when the suite starts in [st0]: the earlier
    steps have returned.  Formatting is a total function of the posts and
    the summarizer returns a value on every input, so the steps that raise
    are the collection, the concatenation of a summary that is [None], the
    two writes and the notification. *)
Inductive run_step_raises {W} `{Collaborators W} (self : RedditSummarizer)
    (subreddit : str) (st0 : State W) (e : Exception) (st' : State W)
  : Prop :=
  | raises_collect :
      get_today_posts subreddit st0 = (st', inl e) ->
      run_step_raises self subreddit st0 e st'
  | raises_summarize (posts : list Post) (st1 : State W) :
      get_today_posts subreddit st0 = (st1, inr posts) ->
      summarize_with_openai (prepare_posts_for_summary subreddit posts) st1
      = (st', inr None) ->
      e = TypeError_concat_None ->
      run_step_raises self subreddit st0 e st'
  | raises_persist_digest (posts : list Post) (st1 st2 : State W)
      (generated : str) :
      get_today_posts subreddit st0 = (st1, inr posts) ->
      summarize_with_openai (prepare_posts_for_summary subreddit posts) st1
      = (st2, inr (Some generated)) ->
      write_output_file self (subreddit ++ lit ".txt")
        (prepare_posts_for_summary subreddit posts) st2
      = (st', inl e) ->
      run_step_raises self subreddit st0 e st'
  | raises_persist_summary (posts : list Post) (st1 st2 st3 : State W)
      (generated : str) :
      get_today_posts subreddit st0 = (st1, inr posts) ->
      summarize_with_openai (prepare_posts_for_summary subreddit posts) st1
      = (st2, inr (Some generated)) ->
      write_output_file self (subreddit ++ lit ".txt")
        (prepare_posts_for_summary subreddit posts) st2
      = (st3, inr tt) ->
      write_output_file self (subreddit ++ lit "-summary.txt")
        (summary_title subreddit ++ generated) st3
      = (st', inl e) ->
      run_step_raises self subreddit st0 e st'
  | raises_notify (posts : list Post) (st1 st2 st3 st4 : State W)
      (generated : str) :
      get_today_posts subreddit st0 = (st1, inr posts) ->
      summarize_with_openai (prepare_posts_for_summary subreddit posts) st1
      = (st2, inr (Some generated)) ->
      write_output_file self (subreddit ++ lit ".txt")
        (prepare_posts_for_summary subreddit posts) st2
      = (st3, inr tt) ->
      write_output_file self (subreddit ++ lit "-summary.txt")
        (summary_title subreddit ++ generated) st3
      = (st4, inr tt) ->
      send_telegram_message (summary_title subreddit ++ generated)
        (printed (repeat 61%N 50) st4)
      = (st', inl e) ->
      run_step_raises self subreddit st0 e st'.

(** The state the loop over the sources ends in: each run starts where the
    one before it stopped. *)
Definition after_runs {W} `{Collaborators W} (self : RedditSummarizer)
    (sources : list str) (st : State W) : State W :=
  fold_left (fun st sub => fst (run self sub st)) sources st.

(** What [os.path.join(folder, name)] puts in front of a relative name. *)
Definition folder_prefix (folder : str) : str :=
  if negb (truthy_str folder) || endswith [SEP] folder
  then folder else folder ++ [SEP].

(** The per-source summary artifacts of a folder. *)
Definition summary_entries (dir : Directory) : list (str * FileRead) :=
  List.filter (fun entry => is_summary_name (fst entry)) dir.

(** Lexicographic order of file names. *)
Definition name_le (e1 e2 : str * FileRead) : bool :=
  str_le (fst e1) (fst e2).

(** The contents that can be read, in the order given, each trimmed. *)
Fixpoint trimmed_contents (entries : list (str * FileRead)) : list str :=
  match entries with
  | [] => []
  | (_, Readable content) :: rest => strip content :: trimmed_contents rest
  | (_, Unreadable _) :: rest => trimmed_contents rest
  end.

(** Directory entries have distinct names without a separator in them. *)
Definition well_formed_dir (dir : Directory) : Prop :=
  NoDup (map fst dir) /\ Forall (fun entry => ~ In SEP (fst entry)) dir.

(** ** A scripted outside world

    The collaborators answer from a script and the world is the log of the
    calls made to them. *)

Inductive Event :=
  | Listed (subreddit : str) (limit : nat)
  | Asked (model system user : str) (max_tokens : nat)
  | Wrote (path text : str)
  | Sent (text : str).

Record Script := {
  on_listing : str -> Listing;
  the_clock : Clock;
  on_chat : str -> Exception + Response;
  on_write : str -> option Exception;
  on_post : str -> option Exception
}.

Definition scripted (s : Script) : Collaborators (list Event) :=
  {| subreddit_new := fun subreddit limit w =>
       (w ++ [Listed subreddit limit], on_listing s subreddit);
     clock := fun _ => the_clock s;
     chat_completions_create := fun model system user max_tokens w =>
       (w ++ [Asked model system user max_tokens], on_chat s user);
     open_write := fun path text w =>
       match on_write s path with
       | Some e => (w, inl e)
       | None => (w ++ [Wrote path text], inr tt)
       end;
     telegram_post := fun text w =>
       match on_post s text with
       | Some e => (w, inl e)
       | None => (w ++ [Sent text], inr tt)
       end |}.

(** Nothing called and nothing printed yet. *)
Definition start : State (list Event) := {| world := []; stdout := [] |}.

(** The summarizer of one day. *)
Definition summarizer : RedditSummarizer :=
  {| output_dir := lit "/srv/output/2023-11-14" |}.

(** ** Inputs used in the examples *)

(** A post with the given title and score, no body and no comments. *)
Definition post_scored (name : string) (points : Z) : Post :=
  {| title := lit name; score := points; num_comments := 0; selftext := [];
     shortlink := lit "https://redd.it/" ++ lit name;
     created_utc := 1700000000; comments := [] |}.

(** Three posts scored 5, 20 and 20, in collection order. *)
Definition three_posts : list Post :=
  [post_scored "calm" 5; post_scored "surge" 20; post_scored "spike" 20].

(** A post with a body of 2000 characters and comments of 1800 each. *)
Definition long_post : Post :=
  {| title := lit "essay"; score := 1; num_comments := 2;
     selftext := repeat 120%N 2000;
     shortlink := lit "https://redd.it/essay";
     created_utc := 1700000000;
     comments := [repeat 121%N 1800; repeat 122%N 1800] |}.

(** A tree of 26 comments with bodies whose resolution raises. *)
Definition unresolved_forest : CommentForest :=
  {| replace_more_raises := Some {| exc_str := lit "received 429 HTTP response" |};
     list_result := inr (repeat (WithBody (lit "to the moon")) 26) |}.

(** A tree whose first comment is the notice to drop, followed by a comment
    that spans lines and an unresolved node. *)
Definition small_forest : CommentForest :=
  {| replace_more_raises := None;
     list_result :=
       inr [WithBody (lit "User report");
            WithBody (lit " buy" ++ [CR; LF] ++ lit "the dip" ++ [LF; LF]);
            NoBody] |}.

(** A submission with the given score, age in seconds at the reading
    [now], and no comments. *)
Definition submission_aged (name : string) (points : Z) (now age : Q)
  : Submission :=
  {| sub_title := lit name;
     sub_score := points;
     sub_num_comments := 0;
     sub_selftext := [];
     sub_shortlink := lit "https://redd.it/" ++ lit name;
     sub_created_utc := (now - age)%Q;
     sub_comments := {| replace_more_raises := None; list_result := inr [] |} |}.

(** A host three hours east of UTC, read at POSIX time 1700000000, and a
    forum whose newest submission is 25 hours old. *)
Definition east_clock : Clock :=
  {| posix_now := 1700000000; local_utcoffset := 10800 |}.

Definition east_script : Script :=
  {| on_listing := fun _ =>
       {| yielded := [submission_aged "stale" 7 1700000000 90000];
          broke := None |};
     the_clock := east_clock;
     on_chat := fun _ => inr {| choices := [Some (lit "1) $TSLA")] |};
     on_write := fun _ => None;
     on_post := fun _ => None |}.

(** A forum that cannot be reached for "wallstreetbets" and has nothing
    new elsewhere, on a host at UTC. *)
Definition outage : Exception :=
  {| exc_str := lit "received 503 HTTP response" |}.

Definition outage_script : Script :=
  {| on_listing := fun subreddit =>
       if str_eqb subreddit (lit "wallstreetbets")
       then {| yielded := []; broke := Some outage |}
       else {| yielded := []; broke := None |};
     the_clock := {| posix_now := 1700000000; local_utcoffset := 0 |};
     on_chat := fun _ => inr {| choices := [Some (lit "1) $TSLA")] |};
     on_write := fun _ => None;
     on_post := fun _ => None |}.

(** A backend that is out of quota. *)
Definition quota : Exception :=
  {| exc_str := lit "Error code: 429 - insufficient_quota" |}.

Definition quota_script : Script :=
  {| on_listing := fun _ => {| yielded := []; broke := None |};
     the_clock := {| posix_now := 1700000000; local_utcoffset := 0 |};
     on_chat := fun _ => inl quota;
     on_write := fun _ => None;
     on_post := fun _ => None |}.

(** A day's folder after the runs of two sources, and a stocks summary
    written with blank lines around its text. *)
Definition day_folder (stocks wallstreetbets : FileRead) : Directory :=
  [(lit "wallstreetbets.txt", Readable (lit "No posts found for today."));
   (lit "wallstreetbets-summary.txt", wallstreetbets);
   (lit "stocks-summary.txt", stocks);
   (lit "stocks.txt", Readable (lit "No posts found for today."))].

Definition padded_stocks : str := [LF] ++ lit "1) hold" ++ [LF; LF; LF].

(** A store with two post dicts, at 1 and 2, and at 3 the list that refers
    to them. *)
Definition two_posts : list (loc * Post) :=
  [(1%positive, post_scored "calm" 5); (2%positive, post_scored "surge" 20)].

Definition two_posts_store : gmap loc Obj :=
  <[3%positive := OList [1%positive; 2%positive]]>
    (<[2%positive := ODict (post_scored "surge" 20)]>
       (<[1%positive := ODict (post_scored "calm" 5)]> ∅)).

(** A host five hours west of UTC, read at the same time, and a forum whose
    newest submission is 23 hours old. *)
Definition west_clock : Clock :=
  {| posix_now := 1700000000; local_utcoffset := -18000 |}.

Definition west_script : Script :=
  {| on_listing := fun _ =>
       {| yielded := [submission_aged "fresh" 7 1700000000 82800];
          broke := None |};
     the_clock := west_clock;
     on_chat := fun _ => inr {| choices := [Some (lit "1) $TSLA")] |};
     on_write := fun _ => None;
     on_post := fun _ => None |}.

(** ** [main] *)

(** What [main] asks of the host beyond the collaborators of a run. *)
Class Host (W : Type) := {
  (** [load_dotenv()] *)
  load_dotenv : W -> W;
  (** [os.getenv(var)]: [None] when the variable is not set *)
  getenv : str -> W -> option str;
  (** [os.getcwd()] *)
  getcwd : W -> Exception + str;
  (** [datetime.now().strftime('%Y-%m-%d')] *)
  today : W -> str;
  (** [os.makedirs(path, exist_ok=True)] *)
  makedirs : str -> W -> W * (Exception + unit);
  (** the [praw.Reddit(...)] and [openai.OpenAI(...)] of [__init__] *)
  make_clients : W -> W * (Exception + unit);
  (** the files of a folder, each with what reading it gives *)
  list_folder : str -> W -> Directory
}.

Definition required_vars : list str :=
  [lit "REDDIT_CLIENT_ID"; lit "REDDIT_CLIENT_SECRET"; lit "OPENAI_API_KEY";
   lit "TELEGRAM_BOT_TOKEN"; lit "TELEGRAM_CHAT_ID"].

(** [not os.getenv(var)]: the variable is unset or empty. *)
Definition env_missing {W} `{Host W} (w : W) (var : str) : bool :=
  match getenv var w with
  | Some value => negb (truthy_str value)
  | None => true
  end.

(** A read of the world that changes nothing. *)
Definition ask {W A} (f : W -> A) : M W A :=
  fun st => (st, inr (f (world st))).

(** [RedditSummarizer(output_dir)] *)
Definition init {W} `{Host W} (output_dir : str) : M W RedditSummarizer :=
  call make_clients ;;;
  ret {| output_dir := output_dir |}.

(** The lines of [main] after the loop: the aggregation pass. *)
Definition aggregate {W} `{Collaborators W} `{Host W}
    (summarizer : RedditSummarizer) (day_output : str) : M W unit :=
  summaries <- ask (fun w =>
    collect_summaries_in_folder day_output (list_folder day_output w)) ;;
  let summary := [128202%N] ++ lit " TODAY'S SUMMARY" ++ [LF; LF] in
  generated <- summarize_with_openai summaries ;;
  summary <- str_add summary generated ;;
  write_output_file summarizer (lit "summary.txt") summary ;;;
  send_telegram_message summary.

Definition main {W} `{Collaborators W} `{Host W} : M W unit :=
  call (fun w => (load_dotenv w, inr tt)) ;;;
  missing <- ask (fun w => List.filter (env_missing w) required_vars) ;;
  match missing with
  | _ :: _ =>
      print ([10060%N] ++ lit " Missing required environment variables")
  | [] =>
      cwd <- call (fun w => (w, getcwd w)) ;;
      let base_output := path_join cwd (lit "output") in
      date_str <- ask today ;;
      let day_output := path_join base_output date_str in
      call (makedirs day_output) ;;;
      summarizer <- init day_output ;;
      main_loop summarizer ;;;
      aggregate summarizer day_output
  end.

(** ** Vocabulary of the further statements *)

(** The line the summarizer prints and the rule a run prints. *)
Definition generating_line : str := lit "Generating summary with OpenAI...".

Definition rule_line : str := repeat 61%N 50.

(** The paths of the two artifacts of a run. *)
Definition digest_path (self : RedditSummarizer) (subreddit : str) : str :=
  path_join (output_dir self) (subreddit ++ lit ".txt").

Definition summary_path (self : RedditSummarizer) (subreddit : str) : str :=
  path_join (output_dir self) (subreddit ++ lit "-summary.txt").

(** The call a summarizer makes to the backend for a text. *)
Definition backend_call {W} `{Collaborators W} (text : str) (w : W)
  : W * (Exception + Response) :=
  chat_completions_create OPENAI_MODEL OPENAI_MESSAGE_SYSTEM
    (OPENAI_MESSAGE_USER ++ text) OPENAI_MAX_COMPLETION_TOKENS w.

(** ** Further scripts *)

(** A backend that answers with a message without content, and a
    notification channel that is down. *)
Definition silent_script : Script :=
  {| on_listing := fun _ => {| yielded := []; broke := None |};
     the_clock := {| posix_now := 1700000000; local_utcoffset := 0 |};
     on_chat := fun _ => inr {| choices := [None] |};
     on_write := fun _ => None;
     on_post := fun _ => None |}.

Definition channel_down : Exception :=
  {| exc_str := lit "Read timed out. (read timeout=15)" |}.

Definition muted_script : Script :=
  {| on_listing := fun _ => {| yielded := []; broke := None |};
     the_clock := {| posix_now := 1700000000; local_utcoffset := 0 |};
     on_chat := fun _ => inr {| choices := [Some (lit "1) $TSLA")] |};
     on_write := fun _ => None;
     on_post := fun _ => Some channel_down |}.

(** The state a run on the scripted world is in when its posts are
    collected, and the world after each later call. *)
Definition collected (s : Script) (subreddit : str) : State (list Event) :=
  fst (get_today_posts (H := scripted s) subreddit
         (after_banner subreddit start)).

Definition asked (s : Script) (subreddit : str) : list Event :=
  fst (backend_call (H := scripted s)
         (lit "No posts found for today.") (world (collected s subreddit))).

Definition wrote_digest (s : Script) (subreddit : str) : list Event :=
  asked s subreddit
  ++ [Wrote (digest_path summarizer subreddit)
        (lit "No posts found for today.")].

Definition wrote_summary (s : Script) (subreddit : str) (generated : str)
  : list Event :=
  wrote_digest s subreddit
  ++ [Wrote (summary_path summarizer subreddit)
        (summary_title subreddit ++ generated)].

(** ** Parts of a block and of the aggregation pass *)

(** The two parts of a block between its head and its end. *)
Definition body_part (post : Post) : str :=
  if truthy_str (selftext post)
  then lit "Post content: " ++ slice_to 1500 (selftext post) ++ lit "..."
       ++ [LF; LF]
  else [].

Definition comments_part (post : Post) : str :=
  match comments post with
  | [] => []
  | _ =>
      lit "Comments:" ++ [LF] ++ lit "- "
      ++ (if 3000 <? length (join comment_separator (comments post))
          then slice_to 3000 (join comment_separator (comments post))
               ++ lit "..."
          else join comment_separator (comments post))
      ++ [LF]
  end.

(** The title line of the aggregate summary and the path it is written
    to. *)
Definition aggregate_title : str :=
  [128202%N] ++ lit " TODAY'S SUMMARY" ++ [LF; LF].

Definition aggregate_path (self : RedditSummarizer) : str :=
  path_join (output_dir self) (lit "summary.txt").

(** The line [main] prints when the configuration is incomplete. *)
Definition missing_line : str :=
  [10060%N] ++ lit " Missing required environment variables".

(** The folder of the day, from the working directory and the date. *)
Definition day_output_of (cwd date_str : str) : str :=
  path_join (path_join cwd (lit "output")) date_str.

(** ** A scripted host

    The environment, working directory and date come from a script; the
    files of a folder are the ones the log of the world shows written
    under it. *)

Record HostScript := {
  env : str -> option str;
  cwd : Exception + str;
  date : str;
  on_makedirs : option Exception;
  on_clients : option Exception
}.

(** What [open(path, "r")] gives back of a text: in universal-newline mode
    "\r\n" and a lone "\r" are read as "\n". *)
Fixpoint universal_newlines (s : str) : str :=
  match s with
  | [] => []
  | c :: rest =>
      if (c =? CR)%N then
        match rest with
        | d :: rest' =>
            if (d =? LF)%N then LF :: universal_newlines rest'
            else LF :: universal_newlines rest
        | [] => [LF]
        end
      else c :: universal_newlines rest
  end.

Definition files_in (folder : str) (w : list Event) : Directory :=
  omap (fun ev =>
          match ev with
          | Wrote path text =>
              if startswith (folder_prefix folder) path
              then Some (skipn (length (folder_prefix folder)) path,
                         Readable (universal_newlines text))
              else None
          | _ => None
          end) w.

Definition hosted (h : HostScript) : Host (list Event) :=
  {| load_dotenv := fun w => w;
     getenv := fun var _ => env h var;
     getcwd := fun _ => cwd h;
     today := fun _ => date h;
     makedirs := fun _ w =>
       match on_makedirs h with
       | Some e => (w, inl e)
       | None => (w, inr tt)
       end;
     make_clients := fun w =>
       match on_clients h with
       | Some e => (w, inl e)
       | None => (w, inr tt)
       end;
     list_folder := files_in |}.

(** A host with every variable set, and one where the chat id is empty. *)
Definition ready_host : HostScript :=
  {| env := fun _ => Some (lit "secret");
     cwd := inr (lit "/srv");
     date := lit "2023-11-14";
     on_makedirs := None;
     on_clients := None |}.

Definition unready_host : HostScript :=
  {| env := fun var =>
       if str_eqb var (lit "TELEGRAM_CHAT_ID") then Some []
       else Some (lit "secret");
     cwd := inr (lit "/srv");
     date := lit "2023-11-14";
     on_makedirs := None;
     on_clients := None |}.

(** ** Vocabulary of the revised statements *)

(** [glob.has_magic]: the text holds one of the pattern characters
    [*], [?] and the opening bracket.  [glob.glob] reads the folder part of
    its argument as a pattern too, so [glob_summaries] is what it returns
    only for a folder name without them. *)
Definition has_magic (s : str) : bool :=
  existsb (fun c => existsb (N.eqb c) [42; 63; 91]%N) s.

(** The nodes the loop goes over before an access raises. *)
Fixpoint before_failure (nodes : list CommentNode) : list CommentNode :=
  match nodes with
  | [] => []
  | Failing _ :: _ => []
  | c :: rest => c :: before_failure rest
  end.

(** The nodes of a tree the flattener gets to: none when resolving the tree
    or listing it raises, otherwise the traversed nodes up to the first one
    whose access raises. *)
Definition reached_nodes (forest : CommentForest) : list CommentNode :=
  match replace_more_raises forest with
  | Some _ => []
  | None => before_failure (traversed_nodes forest)
  end.

(** The text of the block numbered [i] of a post. *)
Definition block_text (i : nat) (post : Post) : str :=
  block_head i post ++ body_part post ++ comments_part post ++ block_end i.

(** The posts of a ranking with their numbers, from 1. *)
Definition numbered (ranked : list Post) : list (nat * Post) :=
  combine (seq 1 (length ranked)) ranked.

(** A tree whose third comment cannot be read: the notice to drop, a
    comment over two lines, the failing node, and a comment after it. *)
Definition broken_forest : CommentForest :=
  {| replace_more_raises := None;
     list_result :=
       inr [WithBody (lit "User report");
            WithBody (lit "hold" ++ [LF] ++ lit "on");
            Failing {| exc_str := lit "received 500 HTTP response" |};
            WithBody (lit "late")] |}.

(** * Properties *)

(** ** The Python operations on small inputs *)

Example splitlines_mixed :
  splitlines (lit "a" ++ [CR; LF] ++ lit "b" ++ [LF; LF] ++ lit "c" ++ [LF])
  = [lit "a"; lit "b"; []; lit "c"].
Proof. reflexivity. Qed.

Example splitlines_only_break : splitlines [LF] = [[]] /\ splitlines [] = [].
Proof. split; reflexivity. Qed.

Example strip_both_ends :
  strip ([SP; LF] ++ lit "a b" ++ [9%N; CR]) = lit "a b".
Proof. reflexivity. Qed.

Example str_of_int_signs :
  str_of_int 20 = lit "20" /\ str_of_int 0 = lit "0"
  /\ str_of_int (-5) = lit "-5".
Proof. repeat split; reflexivity. Qed.

Example path_join_cases :
  path_join (lit "out") (lit "a.txt") = lit "out/a.txt"
  /\ path_join (lit "out/") (lit "a.txt") = lit "out/a.txt"
  /\ path_join [] (lit "a.txt") = lit "a.txt"
  /\ path_join (lit "out") (lit "/a.txt") = lit "/a.txt".
Proof. repeat split; reflexivity. Qed.

Example sorted_reverse_ties :
  sorted_reverse (le_on snd) [(1, 5%Z); (2, 20%Z); (3, 20%Z); (4, 7%Z)]
  = [(2, 20%Z); (3, 20%Z); (4, 7%Z); (1, 5%Z)].
Proof. reflexivity. Qed.

(** ** The stable sort *)

Section SortedFacts.
Context {A : Type} (le : A -> A -> bool).

Lemma insert_by_Permutation x l : Permutation (insert_by le x l) (x :: l).
Proof.
  induction l as [|y l IH]; simpl; [reflexivity|].
  destruct (le x y); [reflexivity|].
  rewrite IH. apply perm_swap.
Qed.

Lemma sorted_Permutation l : Permutation (sorted le l) l.
Proof.
  induction l as [|x l IH]; simpl; [constructor|].
  rewrite insert_by_Permutation. now constructor.
Qed.

Lemma sorted_reverse_Permutation l : Permutation (sorted_reverse le l) l.
Proof.
  unfold sorted_reverse.
  rewrite <- Permutation_rev, sorted_Permutation, <- Permutation_rev.
  reflexivity.
Qed.

(** Elements of one class (any two of them compare as equal) keep their
    order. *)
Section Stable.
Context (p : A -> bool).
Hypothesis p_class : forall x y, p x = true -> p y = true -> le x y = true.

Lemma filter_insert_by x l :
  List.filter p (insert_by le x l) = List.filter p (x :: l).
Proof.
  induction l as [|y l IH]; [reflexivity|].
  cbn [insert_by]. destruct (le x y) eqn:Hle; [reflexivity|].
  cbn [List.filter] in *. rewrite IH.
  destruct (p x) eqn:Hx, (p y) eqn:Hy; try reflexivity.
  rewrite (p_class x y Hx Hy) in Hle. discriminate.
Qed.

Lemma filter_sorted l : List.filter p (sorted le l) = List.filter p l.
Proof.
  induction l as [|x l IH]; [reflexivity|].
  cbn [sorted]. rewrite filter_insert_by. cbn [List.filter].
  now rewrite IH.
Qed.

Lemma filter_sorted_reverse l :
  List.filter p (sorted_reverse le l) = List.filter p l.
Proof.
  unfold sorted_reverse.
  now rewrite List.filter_rev, filter_sorted, List.filter_rev, rev_involutive.
Qed.
End Stable.

Section Ordered.
Hypothesis le_total : forall x y, le x y = false -> le y x = true.
Hypothesis le_trans :
  forall x y z, le x y = true -> le y z = true -> le x z = true.

Let R (x y : A) : Prop := le x y = true.

Lemma insert_by_StronglySorted x l :
  StronglySorted R l -> StronglySorted R (insert_by le x l).
Proof.
  induction l as [|y l IH]; intros Hs; cbn [insert_by].
  - repeat constructor.
  - apply StronglySorted_inv in Hs as [Hs Hy].
    destruct (le x y) eqn:Hle.
    + constructor; [now constructor|].
      constructor; [exact Hle|].
      eapply Forall_impl; [exact Hy|]. intros z Hz. exact (le_trans _ _ _ Hle Hz).
    + constructor; [now apply IH|].
      eapply Permutation_Forall; [symmetry; apply insert_by_Permutation|].
      constructor; [now apply le_total|exact Hy].
Qed.

Lemma sorted_StronglySorted l : StronglySorted R (sorted le l).
Proof.
  induction l as [|x l IH]; cbn [sorted]; [constructor|].
  now apply insert_by_StronglySorted.
Qed.

Lemma sorted_reverse_StronglySorted l :
  StronglySorted (fun x y => le y x = true) (sorted_reverse le l).
Proof.
  unfold sorted_reverse.
  generalize (sorted_StronglySorted (rev l)).
  generalize (sorted le (rev l)) as s.
  induction s as [|x s IH]; intros Hs; cbn [rev]; [constructor|].
  apply StronglySorted_inv in Hs as [Hs Hx].
  apply StronglySorted_app_2; [|now apply IH|repeat constructor].
  intros a b Ha Hb. apply list_elem_of_singleton in Hb as ->.
  rewrite Forall_forall in Hx. apply Hx.
  apply list_elem_of_In, in_rev, list_elem_of_In. exact Ha.
Qed.
End Ordered.
End SortedFacts.

Lemma StronglySorted_weaken {A} (R R' : A -> A -> Prop) (l : list A) :
  (forall x y, R x y -> R' x y) -> StronglySorted R l -> StronglySorted R' l.
Proof.
  intros HR. induction 1 as [|x l Hs IH Hx]; constructor; [exact IH|].
  eapply Forall_impl; [exact Hx|]. intros y. apply HR.
Qed.

(** Sorting commutes with a map that respects the comparison. *)
Lemma sorted_map {A B} (leA : A -> A -> bool) (leB : B -> B -> bool)
    (f : A -> B) (l : list A) :
  (forall x y, leB (f x) (f y) = leA x y) ->
  sorted leB (map f l) = map f (sorted leA l).
Proof.
  intros Hf. induction l as [|x l IH]; [reflexivity|].
  cbn [map sorted]. rewrite IH. clear IH.
  induction (sorted leA l) as [|y s IHs]; [reflexivity|].
  cbn [map insert_by]. rewrite Hf. destruct (leA x y); [reflexivity|].
  cbn [map]. now rewrite IHs.
Qed.

Lemma sorted_reverse_map {A B} (leA : A -> A -> bool) (leB : B -> B -> bool)
    (f : A -> B) (l : list A) :
  (forall x y, leB (f x) (f y) = leA x y) ->
  sorted_reverse leB (map f l) = map f (sorted_reverse leA l).
Proof.
  intros Hf. unfold sorted_reverse.
  now rewrite <- map_rev, (sorted_map leA leB f _ Hf), map_rev.
Qed.

(** ** The digest formatter *)

Lemma post_block_app (summary_text : str) (ip : nat * Post) :
  post_block summary_text ip = summary_text ++ post_block [] ip.
Proof.
  destruct ip as [i post]. unfold post_block.
  generalize 3000 as max_chars. generalize 1500 as cap. intros cap max_chars.
  destruct (truthy_str (selftext post)), (comments post);
    rewrite <- ?app_assoc; reflexivity.
Qed.

Lemma fold_left_post_block (ips : list (nat * Post)) (summary_text : str) :
  fold_left post_block ips summary_text
  = summary_text ++ concat (map (post_block []) ips).
Proof.
  revert summary_text.
  induction ips as [|ip ips IH]; intros summary_text; cbn [fold_left map concat].
  - now rewrite app_nil_r.
  - rewrite IH, (post_block_app summary_text ip), <- app_assoc. reflexivity.
Qed.

Lemma prepare_posts_blocks (subreddit : str) (posts : list Post) :
  posts <> [] ->
  prepare_posts_for_summary subreddit posts
  = digest_header subreddit
    ++ concat (map (post_block [])
                 (enumerate (sorted_reverse (le_on score) posts) 1)).
Proof.
  intros Hne. destruct posts as [|p posts]; [congruence|].
  unfold prepare_posts_for_summary. now rewrite fold_left_post_block.
Qed.

Lemma le_on_total {A} (key : A -> Z) (x y : A) :
  le_on key x y = false -> le_on key y x = true.
Proof. unfold le_on. lia. Qed.

Lemma le_on_trans {A} (key : A -> Z) (x y z : A) :
  le_on key x y = true -> le_on key y z = true -> le_on key x z = true.
Proof. unfold le_on. lia. Qed.

(** C6: on the empty sequence of posts the formatter returns the fixed
    text "No posts found for today.", which is not the empty string,
    whatever the source name. *)
Theorem prepare_posts_empty (subreddit : str) :
  prepare_posts_for_summary subreddit [] = lit "No posts found for today."
  /\ prepare_posts_for_summary subreddit [] <> []
  /\ length (prepare_posts_for_summary subreddit []) = 25.
Proof. repeat split. discriminate. Qed.

Lemma post_block_parts (i : nat) (post : Post) :
  post_block [] (i, post)
  = block_head i post ++ body_part post ++ comments_part post ++ block_end i.
Proof.
  unfold post_block, block_head, block_end, body_part, comments_part.
  fold comment_separator.
  generalize 3000 as max_chars. generalize 1500 as cap. intros cap max_chars.
  destruct (truthy_str (selftext post)), (comments post);
    rewrite <- ?app_assoc; reflexivity.
Qed.

Lemma enumerate_numbered {A} (l : list A) (start : nat) :
  enumerate l start = combine (seq start (length l)) l.
Proof.
  revert start. induction l as [|x l IH]; intros start; [reflexivity|].
  cbn [enumerate length seq combine]. now rewrite IH.
Qed.

(** The digest of a non-empty sequence of posts, block by block. *)
Lemma prepare_posts_block_texts (subreddit : str) (posts : list Post) :
  posts <> [] ->
  prepare_posts_for_summary subreddit posts
  = digest_header subreddit
    ++ concat (map (fun ip => block_text (fst ip) (snd ip))
                 (numbered (sorted_reverse (le_on score) posts))).
Proof.
  intros Hne. rewrite (prepare_posts_blocks subreddit posts Hne).
  unfold numbered. rewrite enumerate_numbered. do 2 f_equal.
  apply map_ext. intros [i post]. apply post_block_parts.
Qed.

(** C2: for a non-empty sequence of posts the digest is the header followed
    by the blocks of the posts of a ranking of the input, numbered from 1,
    each block made of its start line, title, score, comment count and
    link, its body excerpt and comments, and its end line; the ranking is a
    rearrangement of the input, in descending order of score, and keeps the
    input order among the posts of any one score; on scores 5, 20, 20 the
    ranking is second, third, first. *)
Theorem prepare_posts_ranked_stable (subreddit : str) (posts : list Post) :
  posts <> [] ->
  exists ranked : list Post,
    prepare_posts_for_summary subreddit posts
    = digest_header subreddit
      ++ concat (map (fun ip =>
                        block_head (fst ip) (snd ip)
                        ++ body_part (snd ip) ++ comments_part (snd ip)
                        ++ block_end (fst ip))
                   (combine (seq 1 (length ranked)) ranked))
    /\ Permutation ranked posts
    /\ StronglySorted (fun p q => (score q <= score p)%Z) ranked
    /\ (forall s : Z,
          List.filter (fun p => (score p =? s)%Z) ranked
          = List.filter (fun p => (score p =? s)%Z) posts)
    /\ (forall p1 p2 p3 : Post,
          posts = [p1; p2; p3] ->
          score p1 = 5%Z -> score p2 = 20%Z -> score p3 = 20%Z ->
          ranked = [p2; p3; p1]).
Proof.
  intros Hne. exists (sorted_reverse (le_on score) posts).
  split; [exact (prepare_posts_block_texts subreddit posts Hne)|].
  split; [apply sorted_reverse_Permutation|].
  split.
  - eapply StronglySorted_weaken;
      [|apply (sorted_reverse_StronglySorted (le_on score));
        [apply le_on_total|apply le_on_trans]].
    intros p q. unfold le_on. cbn beta. lia.
  - split.
    + intros s. apply filter_sorted_reverse.
      intros x y Hx Hy. unfold le_on. lia.
    + intros p1 p2 p3 -> H1 H2 H3.
      destruct p1, p2, p3. cbn [score] in H1, H2, H3. subst.
      reflexivity.
Qed.

(** For the three posts scored 5, 20 and 20. *)
Lemma prepare_posts_ranked_stable_witness :
  three_posts <> []
  /\ exists ranked : list Post,
       prepare_posts_for_summary (lit "stocks") three_posts
       = digest_header (lit "stocks")
         ++ concat (map (fun ip =>
                           block_head (fst ip) (snd ip)
                           ++ body_part (snd ip) ++ comments_part (snd ip)
                           ++ block_end (fst ip))
                      (combine (seq 1 (length ranked)) ranked))
       /\ ranked = [post_scored "surge" 20; post_scored "spike" 20;
                    post_scored "calm" 5].
Proof.
  assert (Hne : three_posts <> []) by discriminate.
  split; [exact Hne|].
  destruct (prepare_posts_ranked_stable (lit "stocks") three_posts Hne)
    as (ranked & Hout & _ & _ & _ & Hscenario).
  exists ranked. split; [exact Hout|].
  now apply (Hscenario (post_scored "calm" 5) (post_scored "surge" 20)
               (post_scored "spike" 20)).
Defined.

(** C8: in the digest of a non-empty sequence of posts, the block of every
    post holds, after its five head lines, the body excerpt when the post
    has one, cut to the first 1500 characters of the body, and then the
    joined comment bodies when there are any, kept whole up to 3000
    characters and otherwise cut to their first 3000 characters with the
    marker "..." appended. *)
Theorem post_block_caps (subreddit : str) (posts : list Post) :
  posts <> [] ->
  exists ranked : list Post,
    Permutation ranked posts
    /\ prepare_posts_for_summary subreddit posts
       = digest_header subreddit
         ++ concat (map (post_block []) (enumerate ranked 1))
    /\ forall (i : nat) (post : Post),
         exists body_part comments_part : str,
           post_block [] (i, post)
           = block_head i post ++ body_part ++ comments_part ++ block_end i
           /\ match selftext post with
              | [] => body_part = []
              | _ =>
                  exists excerpt rest : str,
                    body_part = lit "Post content: " ++ excerpt ++ lit "..."
                                ++ [LF; LF]
                    /\ selftext post = excerpt ++ rest
                    /\ length excerpt = Nat.min 1500 (length (selftext post))
              end
           /\ match comments post with
              | [] => comments_part = []
              | _ =>
                  exists capped : str,
                    comments_part = lit "Comments:" ++ [LF] ++ lit "- "
                                    ++ capped ++ [LF]
                    /\ (length (join comment_separator (comments post)) <= 3000
                        -> capped = join comment_separator (comments post))
                    /\ (3000 < length (join comment_separator (comments post))
                        -> exists kept rest : str,
                             join comment_separator (comments post)
                             = kept ++ rest
                             /\ length kept = 3000
                             /\ capped = kept ++ lit "...")
              end.
Proof.
  intros Hne. exists (sorted_reverse (le_on score) posts).
  split; [apply sorted_reverse_Permutation|].
  split; [now apply prepare_posts_blocks|].
  intros i post.
  exists (if truthy_str (selftext post)
          then lit "Post content: " ++ slice_to 1500 (selftext post)
               ++ lit "..." ++ [LF; LF]
          else []).
  exists (match comments post with
          | [] => []
          | _ => lit "Comments:" ++ [LF] ++ lit "- "
                 ++ (if 3000 <? length (join comment_separator (comments post))
                     then slice_to 3000 (join comment_separator (comments post))
                          ++ lit "..."
                     else join comment_separator (comments post))
                 ++ [LF]
          end).
  split; [|split].
  - unfold post_block, block_head, block_end.
    fold comment_separator.
    generalize 3000 as max_chars. generalize 1500 as cap.
    intros cap max_chars.
    destruct (truthy_str (selftext post)), (comments post);
      rewrite <- ?app_assoc; reflexivity.
  - destruct (selftext post) as [|c s] eqn:Hs; [reflexivity|].
    rewrite <- Hs. replace (truthy_str (selftext post)) with true by now rewrite Hs.
    exists (slice_to 1500 (selftext post)), (skipn 1500 (selftext post)).
    unfold slice_to.
    split; [reflexivity|]. split; [now rewrite firstn_skipn|].
    apply length_firstn.
  - destruct (comments post) as [|c cs] eqn:Hc; [reflexivity|].
    rewrite <- Hc.
    set (joined := join comment_separator (comments post)).
    exists (if 3000 <? length joined
            then slice_to 3000 joined ++ lit "..." else joined).
    split; [reflexivity|]. split.
    + intros Hle. destruct (Nat.ltb_spec 3000 (length joined)); [lia|reflexivity].
    + intros Hlt. destruct (Nat.ltb_spec 3000 (length joined)); [|lia].
      exists (slice_to 3000 joined), (skipn 3000 joined). unfold slice_to.
      split; [now rewrite firstn_skipn|]. split; [|reflexivity].
      rewrite length_firstn. lia.
Qed.

(** For a post whose body and joined comments are both over the caps. *)
Lemma post_block_caps_witness :
  [long_post] <> []
  /\ exists excerpt kept : str,
       post_block [] (1, long_post)
       = block_head 1 long_post
         ++ (lit "Post content: " ++ excerpt ++ lit "..." ++ [LF; LF])
         ++ (lit "Comments:" ++ [LF] ++ lit "- " ++ (kept ++ lit "...")
             ++ [LF])
         ++ block_end 1
       /\ length excerpt = 1500 /\ length kept = 3000.
Proof.
  assert (Hne : [long_post] <> []) by discriminate.
  split; [exact Hne|].
  destruct (post_block_caps (lit "stocks") [long_post] Hne)
    as (ranked & _ & _ & Hblocks).
  destruct (Hblocks 1 long_post)
    as (body_part & comments_part & Hblock & Hbody & Hcomments).
  destruct Hbody as (excerpt & rest & -> & _ & Hlen).
  destruct Hcomments as (capped & -> & _ & Hcut).
  destruct Hcut as (kept & rest' & _ & Hkept & ->);
    [vm_compute; lia|].
  exists excerpt, kept. split; [exact Hblock|]. split; [|exact Hkept].
  rewrite Hlen. vm_compute. reflexivity.
Defined.

(** ** The comment flattener *)

Lemma is_linebreak_is_space (c : char) :
  is_linebreak c = true -> is_space c = true.
Proof.
  unfold is_linebreak. cbn [existsb]. intros H.
  rewrite !orb_true_iff, !N.eqb_eq in H.
  repeat destruct H as [H|H]; subst; try reflexivity; discriminate.
Qed.

Lemma lstrip_app_keep (u : str) (c : char) :
  is_space c = false -> lstrip (u ++ [c]) = lstrip u ++ [c].
Proof.
  intros Hc. induction u as [|d u IH]; cbn [lstrip app].
  - now rewrite Hc.
  - destruct (is_space d); [exact IH|reflexivity].
Qed.

Lemma lstrip_app_space (u : str) (c : char) :
  is_space c = true ->
  lstrip (u ++ [c]) = match lstrip u with [] => [] | t => t ++ [c] end.
Proof.
  intros Hc. induction u as [|d u IH]; cbn [lstrip app].
  - now rewrite Hc.
  - destruct (is_space d); [exact IH|reflexivity].
Qed.

Lemma rstrip_snoc_space (u : str) (c : char) :
  is_space c = true -> rstrip (u ++ [c]) = rstrip u.
Proof.
  intros Hc. unfold rstrip. rewrite rev_unit. cbn [lstrip]. now rewrite Hc.
Qed.

Lemma strip_snoc_space (u : str) (c : char) :
  is_space c = true -> strip (u ++ [c]) = strip u.
Proof.
  intros Hc. unfold strip. rewrite (lstrip_app_space u c Hc).
  destruct (lstrip u) as [|d t]; [reflexivity|].
  now apply rstrip_snoc_space.
Qed.

Lemma strip_trailing_spaces (u : str) (k : nat) :
  strip (u ++ repeat SP k) = strip u.
Proof.
  induction k as [|k IH]; cbn [repeat]; [now rewrite app_nil_r|].
  rewrite repeat_cons, app_assoc, strip_snoc_space; [exact IH|reflexivity].
Qed.

Lemma lstrip_Forall (P : char -> Prop) (s : str) :
  Forall P s -> Forall P (lstrip s).
Proof.
  induction 1 as [|c s Hc Hs IH]; cbn [lstrip]; [constructor|].
  destruct (is_space c); [exact IH|now constructor].
Qed.

Lemma strip_Forall (P : char -> Prop) (s : str) :
  Forall P s -> Forall P (strip s).
Proof.
  intros H. unfold strip, rstrip.
  apply Forall_rev, lstrip_Forall, Forall_rev, lstrip_Forall, H.
Qed.

Lemma lstrip_head (s : str) (c : char) (rest : str) :
  lstrip s = c :: rest -> is_space c = false.
Proof.
  induction s as [|d s IH]; cbn [lstrip]; [discriminate|].
  destruct (is_space d) eqn:Hd; [exact IH|].
  intros [= <- <-]. exact Hd.
Qed.

Lemma rstrip_cons_keep (c : char) (t : str) :
  is_space c = false -> rstrip (c :: t) = c :: rstrip t.
Proof.
  intros Hc. unfold rstrip. cbn [rev].
  now rewrite (lstrip_app_keep _ _ Hc), rev_unit.
Qed.

Lemma strip_trimmed (s : str) : trimmed (strip s).
Proof.
  unfold strip. split.
  - intros c rest Heq.
    destruct (lstrip s) as [|d t] eqn:Hl; [discriminate|].
    pose proof (lstrip_head _ _ _ Hl) as Hd.
    rewrite (rstrip_cons_keep _ _ Hd) in Heq. now injection Heq as <- _.
  - intros c front Heq. unfold rstrip in Heq.
    apply (f_equal (@rev char)) in Heq.
    rewrite rev_involutive, rev_unit in Heq.
    exact (lstrip_head _ _ _ Heq).
Qed.

Lemma join_cons (sep x : str) (parts : list str) :
  join sep (x :: parts)
  = match parts with [] => x | _ => x ++ sep ++ join sep parts end.
Proof. destruct parts; reflexivity. Qed.

(** Joining the lines with a space gives the text with its breaks replaced,
    short of the spaces that stand for breaks at its very end. *)
Lemma join_splitlines_from (n : nat) :
  forall (s cur : str), length s <= n ->
    exists k : nat,
      rev cur ++ breaks_to_spaces s
      = join [SP] (splitlines_from cur s) ++ repeat SP k.
Proof.
  induction n as [|n IH]; intros s cur Hlen.
  - destruct s; [|cbn in Hlen; lia].
    exists 0. destruct cur; cbn [splitlines_from breaks_to_spaces join repeat];
      now rewrite ?app_nil_r.
  - destruct s as [|c rest].
    { exists 0. destruct cur; cbn [splitlines_from breaks_to_spaces join repeat];
        now rewrite ?app_nil_r. }
    cbn [length] in Hlen. cbn [splitlines_from breaks_to_spaces].
    destruct (is_linebreak c) eqn:Hc.
    + assert (Hstep : forall tail : str, length tail <= n ->
                exists k, rev cur ++ SP :: breaks_to_spaces tail
                  = join [SP] (rev cur :: splitlines_from [] tail)
                    ++ repeat SP k).
      { intros tail Ht. destruct (IH tail [] Ht) as [k Hk].
        cbn [rev app] in Hk. rewrite join_cons.
        destruct (splitlines_from [] tail) as [|l ls].
        - exists (S k). rewrite Hk. reflexivity.
        - exists k. rewrite Hk, <- !app_assoc. reflexivity. }
      destruct rest as [|d rest'].
      * exists 1. reflexivity.
      * cbn [length] in Hlen.
        destruct ((c =? CR)%N && (d =? LF)%N).
        -- apply Hstep. lia.
        -- apply (Hstep (d :: rest')). cbn [length]. lia.
    + destruct (IH rest (c :: cur)) as [k Hk]; [lia|].
      exists k. rewrite <- Hk. cbn [rev]. now rewrite <- app_assoc.
Qed.

Lemma flatten_body_breaks (body : str) :
  flatten_body body = strip (breaks_to_spaces body).
Proof.
  destruct (join_splitlines_from (length body) body []) as [k Hk]; [lia|].
  cbn [rev app] in Hk. unfold flatten_body, splitlines.
  now rewrite Hk, strip_trailing_spaces.
Qed.

Lemma breaks_to_spaces_no_break (s : str) :
  Forall (fun c => is_linebreak c = false) (breaks_to_spaces s)
  /\ forall c, Forall (fun c => is_linebreak c = false)
                 (breaks_to_spaces (c :: s)).
Proof.
  induction s as [|d rest [IH1 IH2]].
  - split; [constructor|]. intros c. cbn [breaks_to_spaces].
    destruct (is_linebreak c) eqn:Hc; repeat constructor; exact Hc.
  - split; [apply IH2|]. intros c.
    change (breaks_to_spaces (c :: d :: rest))
      with (if is_linebreak c
            then if (c =? CR)%N && (d =? LF)%N
                 then SP :: breaks_to_spaces rest
                 else SP :: breaks_to_spaces (d :: rest)
            else c :: breaks_to_spaces (d :: rest)).
    destruct (is_linebreak c) eqn:Hc;
      [destruct ((c =? CR)%N && (d =? LF)%N)|];
      constructor; auto.
Qed.

Lemma flatten_body_no_break (body : str) :
  Forall (fun c => is_linebreak c = false) (flatten_body body).
Proof.
  rewrite flatten_body_breaks. apply strip_Forall, breaks_to_spaces_no_break.
Qed.

Lemma collect_comments_Forall (P : str -> Prop) (nodes : list CommentNode) :
  forall comments : list str,
    Forall P comments ->
    (forall body, In (WithBody body) nodes -> P (flatten_body body)) ->
    Forall P (collect_comments nodes comments).
Proof.
  induction nodes as [|c rest IH]; intros comments Hacc Hn;
    cbn [collect_comments]; [exact Hacc|].
  assert (Hrest : forall body, In (WithBody body) rest -> P (flatten_body body))
    by (intros body Hb; apply Hn; now right).
  destruct c as [body| |e]; [|now apply IH|exact Hacc].
  destruct (truthy_str body); [|now apply IH].
  assert (Forall P (comments ++ [strip (join [SP] (splitlines body))])).
  { apply Forall_app. split; [exact Hacc|]. constructor; [|constructor].
    apply Hn. now left. }
  destruct (POST_MAX_COMMENTS <=? _); [assumption|now apply IH].
Qed.

Lemma collect_comments_length (nodes : list CommentNode) :
  forall comments : list str,
    length comments < POST_MAX_COMMENTS ->
    length (collect_comments nodes comments) <= POST_MAX_COMMENTS.
Proof.
  induction nodes as [|c rest IH]; intros comments Hacc;
    cbn [collect_comments]; [lia|].
  destruct c as [body| |e]; [|now apply IH|lia].
  destruct (truthy_str body); [|now apply IH].
  destruct (Nat.leb_spec POST_MAX_COMMENTS
              (length (comments ++ [strip (join [SP] (splitlines body))])))
    as [Hfull|Hroom].
  - rewrite length_app. cbn [length]. lia.
  - now apply IH.
Qed.

Lemma collect_comments_complete (nodes : list CommentNode) :
  forall comments : list str,
    existsb is_failing nodes = false ->
    length comments < POST_MAX_COMMENTS ->
    collect_comments nodes comments
    = firstn POST_MAX_COMMENTS
        (comments ++ map flatten_body (bodies_of nodes)).
Proof.
  induction nodes as [|c rest IH]; intros comments Hok Hacc;
    cbn [collect_comments bodies_of map].
  - rewrite app_nil_r, firstn_all2; [reflexivity|lia].
  - cbn [existsb] in Hok. apply orb_false_iff in Hok as [Hc Hok].
    destruct c as [body| |e]; [|now apply IH|discriminate].
    destruct (truthy_str body); [|now apply IH].
    fold (flatten_body body). cbn [map].
    replace (comments ++ flatten_body body :: map flatten_body (bodies_of rest))
      with ((comments ++ [flatten_body body])
            ++ map flatten_body (bodies_of rest))
      by now rewrite <- app_assoc.
    destruct (Nat.leb_spec POST_MAX_COMMENTS
                (length (comments ++ [flatten_body body]))) as [Hfull|Hroom].
    + rewrite firstn_app.
      rewrite length_app in *. cbn [length] in *.
      replace (POST_MAX_COMMENTS - (length comments + 1)) with 0 by lia.
      rewrite firstn_all2, firstn_O, app_nil_r; [reflexivity|].
      rewrite length_app. cbn [length]. lia.
    + now apply IH.
Qed.

Lemma collect_comments_exact (nodes : list CommentNode) :
  forall comments : list str,
    length comments < POST_MAX_COMMENTS ->
    collect_comments nodes comments
    = firstn POST_MAX_COMMENTS
        (comments ++ map flatten_body (bodies_of (before_failure nodes))).
Proof.
  induction nodes as [|c rest IH]; intros comments Hacc;
    cbn [collect_comments before_failure bodies_of map].
  - rewrite app_nil_r, firstn_all2; [reflexivity|lia].
  - destruct c as [body| |e]; cbn [bodies_of map].
    + destruct (truthy_str body); [|now apply IH].
      fold (flatten_body body). cbn [map].
      replace (comments ++ flatten_body body
               :: map flatten_body (bodies_of (before_failure rest)))
        with ((comments ++ [flatten_body body])
              ++ map flatten_body (bodies_of (before_failure rest)))
        by now rewrite <- app_assoc.
      destruct (Nat.leb_spec POST_MAX_COMMENTS
                  (length (comments ++ [flatten_body body])))
        as [Hfull|Hroom].
      * rewrite firstn_app.
        rewrite length_app in *. cbn [length] in *.
        replace (POST_MAX_COMMENTS - (length comments + 1)) with 0 by lia.
        rewrite firstn_all2, firstn_O, app_nil_r; [reflexivity|].
        rewrite length_app. cbn [length]. lia.
      * now apply IH.
    + now apply IH.
    + rewrite app_nil_r, firstn_all2; [reflexivity|lia].
Qed.

(** What the flattener returns, failure or not: the flattened bodies of
    the eligible nodes it reached, up to the cap. *)
Lemma get_submission_comments_exact (forest : CommentForest) :
  get_submission_comments forest
  = firstn POST_MAX_COMMENTS
      (map flatten_body (bodies_of (reached_nodes forest))).
Proof.
  unfold get_submission_comments, reached_nodes, traversed_nodes.
  destruct (replace_more_raises forest); [reflexivity|].
  destruct (list_result forest) as [e|nodes]; [reflexivity|].
  apply (collect_comments_exact (slice_from1 nodes) []).
  unfold POST_MAX_COMMENTS. cbn. lia.
Qed.

Example get_submission_comments_small :
  get_submission_comments small_forest = [lit "buy the dip"].
Proof. reflexivity. Qed.

(** What was collected before a failing node is returned. *)
Example get_submission_comments_partial :
  get_submission_comments broken_forest = [lit "hold on"].
Proof. reflexivity. Qed.

(** C9: for every comment body, joining its lines with a space and
    trimming, as the flattener does, gives the body with each line break
    (of any of the kinds [splitlines] knows, "\r\n" counting once)
    replaced by a space and then trimmed, a text without any line-break
    character that neither starts nor ends with whitespace; and the list
    the flattener returns holds exactly these texts, one for each eligible
    body it reached, in traversal order, up to the cap of 21. *)
Theorem flattened_comments_single_line (forest : CommentForest) :
  (forall body : str,
     strip (join [SP] (splitlines body)) = strip (breaks_to_spaces body)
     /\ Forall (fun c => is_linebreak c = false)
          (strip (join [SP] (splitlines body)))
     /\ trimmed (strip (join [SP] (splitlines body))))
  /\ get_submission_comments forest
     = firstn POST_MAX_COMMENTS
         (map (fun body => strip (breaks_to_spaces body))
            (bodies_of (reached_nodes forest)))
  /\ Forall (fun b : str =>
               exists body : str,
                 In (WithBody body) (traversed_nodes forest)
                 /\ b = strip (breaks_to_spaces body)
                 /\ Forall (fun c => is_linebreak c = false) b
                 /\ trimmed b)
       (get_submission_comments forest).
Proof.
  split; [|split].
  - intros body. split; [apply flatten_body_breaks|].
    split; [apply flatten_body_no_break|apply strip_trimmed].
  - rewrite get_submission_comments_exact. f_equal.
    apply map_ext. intros body. apply flatten_body_breaks.
  - unfold get_submission_comments, traversed_nodes.
    destruct (replace_more_raises forest); [constructor|].
    destruct (list_result forest) as [e|nodes]; [constructor|].
    apply collect_comments_Forall; [constructor|].
    intros body Hin. exists body.
    split; [exact Hin|]. split; [apply flatten_body_breaks|].
    split; [apply flatten_body_no_break|apply strip_trimmed].
Qed.

(** C5, as the code has it: the flattener returns at most 21 bodies; it
    returns fewer than 21 only when the tree has fewer than 21 eligible
    items or resolving or traversing the tree raised; when nothing raised
    it returns the first 21 eligible bodies, flattened, in order; and in
    every case, a failure included, it returns what it had collected: the
    flattened eligible bodies of the nodes it reached before the failure,
    up to 21 of them. *)
Theorem flattener_count (forest : CommentForest) :
  length (get_submission_comments forest) <= POST_MAX_COMMENTS
  /\ (length (get_submission_comments forest) < POST_MAX_COMMENTS ->
      length (eligible_bodies forest) < POST_MAX_COMMENTS
      \/ traversal_fails forest)
  /\ (~ traversal_fails forest ->
      get_submission_comments forest
      = firstn POST_MAX_COMMENTS (map flatten_body (eligible_bodies forest)))
  /\ get_submission_comments forest
     = firstn POST_MAX_COMMENTS
         (map flatten_body (bodies_of (reached_nodes forest))).
Proof.
  assert (Hok : ~ traversal_fails forest ->
                get_submission_comments forest
                = firstn POST_MAX_COMMENTS
                    (map flatten_body (eligible_bodies forest))).
  { unfold traversal_fails, get_submission_comments, eligible_bodies,
      traversed_nodes.
    intros Hnf.
    destruct (replace_more_raises forest); [exfalso; apply Hnf; left; congruence|].
    destruct (list_result forest) as [e|nodes];
      [exfalso; apply Hnf; right; left; now exists e|].
    apply collect_comments_complete; [|unfold POST_MAX_COMMENTS; cbn; lia].
    destruct (existsb is_failing (slice_from1 nodes)) eqn:Hf; [|reflexivity].
    exfalso. apply Hnf. now right; right. }
  split; [|split; [|split; [exact Hok|apply get_submission_comments_exact]]].
  - unfold get_submission_comments.
    destruct (replace_more_raises forest); [cbn; lia|].
    destruct (list_result forest); [cbn; lia|].
    apply collect_comments_length. unfold POST_MAX_COMMENTS. cbn. lia.
  - intros Hfew.
    assert (Hdec : traversal_fails forest \/ ~ traversal_fails forest).
    { unfold traversal_fails.
      destruct (replace_more_raises forest); [left; left; congruence|].
      destruct (list_result forest) as [e|nodes];
        [left; right; left; now exists e|].
      destruct (existsb is_failing (traversed_nodes forest)) eqn:Hf;
        [left; now right; right|].
      right. intros [H|[[e He]|H]]; congruence. }
    destruct Hdec as [Hf|Hnf]; [now right|left].
    rewrite (Hok Hnf), length_firstn, length_map in Hfew. lia.
Qed.

(** For the tree [small_forest], which resolves and traverses without an
    exception. *)
Lemma flattener_count_witness :
  ~ traversal_fails small_forest
  /\ get_submission_comments small_forest
     = firstn POST_MAX_COMMENTS
         (map flatten_body (eligible_bodies small_forest))
  /\ length (eligible_bodies small_forest) < POST_MAX_COMMENTS.
Proof.
  assert (Hnf : ~ traversal_fails small_forest).
  { intros [H|[[e He]|H]]; [now apply H|discriminate|discriminate]. }
  destruct (flattener_count small_forest) as (_ & Hfew & Hall & _).
  split; [exact Hnf|]. split; [exact (Hall Hnf)|].
  destruct Hfew as [Hlt|Hf]; [unfold POST_MAX_COMMENTS; cbn; lia|exact Hlt|].
  exfalso. exact (Hnf Hf).
Defined.

(** C5 as stated fails on [unresolved_forest]: resolving it raises, so
    nothing is returned, although 25 eligible items follow the first
    element. *)
Lemma flattener_fewer_counterexample :
  get_submission_comments unresolved_forest = []
  /\ length (eligible_bodies unresolved_forest) = 25
  /\ ~ (length (get_submission_comments unresolved_forest) < POST_MAX_COMMENTS
        -> length (eligible_bodies unresolved_forest) < POST_MAX_COMMENTS).
Proof.
  split; [reflexivity|]. split; [reflexivity|].
  intros H. assert (Hlt : 25 < 21); [|lia].
  apply H. unfold POST_MAX_COMMENTS. cbn. lia.
Qed.

(** ** The post collector *)

Lemma fetch_posts_spec {W} (subreddit : str) (cutoff_ts : Q)
    (submissions : list Submission) :
  forall (posts : list Post) (st : State W),
    exists out : list str,
      fetch_posts subreddit cutoff_ts submissions posts st
      = ({| world := world st; stdout := stdout st ++ out |},
         inr (posts ++ map post_of_submission
                (List.filter (fun s => Qle_bool cutoff_ts (sub_created_utc s))
                   submissions))).
Proof.
  induction submissions as [|submission rest IH]; intros posts st.
  - exists []. cbn. rewrite !app_nil_r. now destruct st.
  - cbn [fetch_posts List.filter]. unfold bind at 1. unfold print at 1.
    unfold printed at 1.
    destruct (Qle_bool cutoff_ts (sub_created_utc submission)).
    + edestruct IH as [out ->]. eexists (_ :: out).
      cbn [world stdout map]. now rewrite <- !app_assoc.
    + edestruct IH as [out ->]. eexists (_ :: out).
      cbn [world stdout map]. now rewrite <- !app_assoc.
Qed.

(** What [get_today_posts] returns: the listing's exception when it has
    one, and otherwise the posts of the yielded submissions created at or
    after the cutoff, in the order yielded. *)
Lemma get_today_posts_spec {W} `{Collaborators W} (subreddit : str)
    (st : State W) :
  let c := clock (world st) in
  let cutoff_ts := timestamp c (minus_hours (utcnow c) 24) in
  let listing := snd (subreddit_new subreddit SUBREDDIT_MAX_POSTS (world st)) in
  exists out : list str,
    get_today_posts subreddit st
    = ({| world := fst (subreddit_new subreddit SUBREDDIT_MAX_POSTS (world st));
          stdout := stdout st ++ out |},
       match broke listing with
       | Some e => inl e
       | None =>
           inr (map post_of_submission
                  (List.filter
                     (fun s => Qle_bool cutoff_ts (sub_created_utc s))
                     (yielded listing)))
       end).
Proof.
  cbn zeta. unfold get_today_posts, bind, read_clock, call.
  destruct (subreddit_new subreddit SUBREDDIT_MAX_POSTS (world st))
    as [w' listing] eqn:Hl.
  cbn [fst snd world stdout].
  edestruct (fetch_posts_spec (W:=W) subreddit) as [out ->].
  exists out. cbn [world stdout app].
  destruct (broke listing); reflexivity.
Qed.

(** The cutoff the code computes, in terms of the clock. *)
Lemma cutoff_of_clock (c : Clock) (created : Q) :
  Qle_bool (timestamp c (minus_hours (utcnow c) 24)) created = true
  <-> (posix_now c - 86400 - local_utcoffset c <= created)%Q.
Proof.
  rewrite Qle_bool_iff. unfold timestamp, minus_hours, utcnow.
  cbn [wall_seconds]. reflexivity.
Qed.

(** On a host whose local time is UTC the window is the trailing 24
    hours. *)
Lemma cutoff_on_utc_host (c : Clock) (created : Q) :
  (local_utcoffset c == 0)%Q ->
  Qle_bool (timestamp c (minus_hours (utcnow c) 24)) created = true
  <-> (posix_now c - 86400 <= created)%Q.
Proof.
  intros H0. rewrite cutoff_of_clock, H0.
  unfold Qminus. now rewrite Qplus_0_r.
Qed.

(** On a host whose local time is UTC the collector returns the posts of
    the submissions created at or after the reading less 24 hours. *)
Lemma get_today_posts_on_utc_host {W} `{Collaborators W} (subreddit : str)
    (st : State W) :
  (local_utcoffset (clock (world st)) == 0)%Q ->
  broke (snd (subreddit_new subreddit SUBREDDIT_MAX_POSTS (world st))) = None ->
  exists st' : State W,
    get_today_posts subreddit st
    = (st',
       inr (map post_of_submission
              (List.filter
                 (fun s => Qle_bool (posix_now (clock (world st)) - 86400)
                             (sub_created_utc s))
                 (yielded (snd (subreddit_new subreddit SUBREDDIT_MAX_POSTS
                                  (world st))))))).
Proof.
  intros Hutc Hok.
  destruct (get_today_posts_spec subreddit st) as [out ->].
  rewrite Hok. eexists. do 3 f_equal.
  apply List.filter_ext. intros s.
  pose proof (cutoff_on_utc_host (clock (world st)) (sub_created_utc s) Hutc)
    as Hiff.
  rewrite <- Qle_bool_iff in Hiff.
  destruct (Qle_bool (timestamp _ _) _), (Qle_bool (_ - _) _);
    try reflexivity; [symmetry|]; now apply Hiff.
Qed.

(** On the host [west_clock] the cutoff lies 19 hours back and a submission
    that is 23 hours old is left out. *)
Example get_today_posts_west_drops_fresh :
  snd (get_today_posts (H := scripted west_script) (lit "stocks") start)
  = inr [].
Proof. reflexivity. Qed.

(** C4 at the host [east_clock]: the collector returns the submission that
    is 25 hours old, created before the reading minus 24 hours, because the
    cutoff it computes lies three more hours back. *)
Theorem get_today_posts_east_includes_stale :
  exists post : Post,
    snd (get_today_posts (H := scripted east_script) (lit "stocks") start)
    = inr [post]
    /\ title post = lit "stale"
    /\ (created_utc post < posix_now east_clock - 86400)%Q
    /\ (posix_now east_clock - 86400 - local_utcoffset east_clock
        <= created_utc post)%Q.
Proof.
  eexists. split; [reflexivity|].
  split; [reflexivity|].
  split; [vm_compute; reflexivity|vm_compute; discriminate].
Qed.

(** ** The summarizer *)

(** The summarizer returns a value in every case. *)
Lemma summarize_with_openai_spec {W} `{Collaborators W} (text : str)
    (st : State W) :
  summarize_with_openai text st
  = ({| world := fst (chat_completions_create OPENAI_MODEL
                        OPENAI_MESSAGE_SYSTEM (OPENAI_MESSAGE_USER ++ text)
                        OPENAI_MAX_COMPLETION_TOKENS (world st));
        stdout := stdout st ++ [lit "Generating summary with OpenAI..."] |},
     inr match snd (chat_completions_create OPENAI_MODEL
                      OPENAI_MESSAGE_SYSTEM (OPENAI_MESSAGE_USER ++ text)
                      OPENAI_MAX_COMPLETION_TOKENS (world st)) with
         | inl e => Some (lit "Error generating summary: " ++ exc_str e)
         | inr response =>
             match choices response with
             | content :: _ => content
             | [] => Some (lit "Error generating summary: "
                           ++ exc_str IndexError)
             end
         end).
Proof.
  unfold summarize_with_openai, bind, try_except, print, printed, call, ret,
    raise.
  cbn [world stdout].
  destruct (chat_completions_create _ _ _ _ _) as [w' [e|response]];
    cbn [fst snd world stdout]; [reflexivity|].
  destruct (choices response); reflexivity.
Qed.

(** C3: when the call to the inference backend raises, with any exception
    [e], the summarizer returns normally, and what it returns is a string,
    not empty, made of "Error generating summary: " followed by the
    description [str(e)] of the failure. *)
Theorem summarize_backend_failure {W} `{Collaborators W} (text : str)
    (st : State W) (w' : W) (e : Exception) :
  chat_completions_create OPENAI_MODEL OPENAI_MESSAGE_SYSTEM
    (OPENAI_MESSAGE_USER ++ text) OPENAI_MAX_COMPLETION_TOKENS (world st)
  = (w', inl e) ->
  exists (st' : State W) (summary : str),
    summarize_with_openai text st = (st', inr (Some summary))
    /\ world st' = w'
    /\ summary = lit "Error generating summary: " ++ exc_str e
    /\ summary <> []
    /\ length summary = 26 + length (exc_str e).
Proof.
  intros Hfail. rewrite summarize_with_openai_spec, Hfail.
  cbn [fst snd]. eexists _, _. split; [reflexivity|].
  split; [reflexivity|]. split; [reflexivity|].
  split; [discriminate|reflexivity].
Qed.

(** For the backend of [quota_script], which raises on every call. *)
Lemma summarize_backend_failure_witness :
  exists (st' : State (list Event)) (summary : str),
    summarize_with_openai (H := scripted quota_script)
      (lit "No posts found for today.") start
    = (st', inr (Some summary))
    /\ summary = lit "Error generating summary: Error code: 429 - insufficient_quota".
Proof.
  destruct (summarize_backend_failure (H := scripted quota_script)
              (lit "No posts found for today.") start
              [Asked OPENAI_MODEL OPENAI_MESSAGE_SYSTEM
                 (OPENAI_MESSAGE_USER ++ lit "No posts found for today.")
                 OPENAI_MAX_COMPLETION_TOKENS]
              quota eq_refl)
    as (st' & summary & Hrun & _ & Hsum & _).
  exists st', summary. split; [exact Hrun|exact Hsum].
Defined.

(** ** The per-source run and the loop over the sources *)

Lemma run_banner_returns {W} (subreddit : str) (st : State W) :
  run_banner subreddit st = (after_banner subreddit st, inr tt).
Proof. reflexivity. Qed.

Lemma run_unfold {W} `{Collaborators W} (self : RedditSummarizer)
    (subreddit : str) (st : State W) :
  run self subreddit st
  = match run_try self subreddit (after_banner subreddit st) with
    | (st', inr summary) => (st', inr summary)
    | (st', inl e) => (after_error e st', inr [])
    end.
Proof.
  unfold run, bind at 1. rewrite run_banner_returns. unfold try_except.
  destruct (run_try self subreddit (after_banner subreddit st))
    as [st' [e|summary]]; reflexivity.
Qed.

Lemma run_step_raises_sound {W} `{Collaborators W} (self : RedditSummarizer)
    (subreddit : str) (st0 st' : State W) (e : Exception) :
  run_step_raises self subreddit st0 e st' ->
  run_try self subreddit st0 = (st', inl e).
Proof.
  unfold run_try, bind. fold (summary_title subreddit).
  intros [Hc|posts st1 Hc Hs ->|posts st1 st2 generated Hc Hs Hd
         |posts st1 st2 st3 generated Hc Hs Hd Hw
         |posts st1 st2 st3 st4 generated Hc Hs Hd Hw Hn];
    rewrite Hc; try rewrite Hs; cbn [str_add ret raise];
    try rewrite Hd; try rewrite Hw; try reflexivity.
  unfold print at 1. rewrite Hn. reflexivity.
Qed.

Lemma run_step_raises_complete {W} `{Collaborators W}
    (self : RedditSummarizer) (subreddit : str) (st0 st' : State W)
    (e : Exception) :
  run_try self subreddit st0 = (st', inl e) ->
  run_step_raises self subreddit st0 e st'.
Proof.
  unfold run_try, bind. fold (summary_title subreddit).
  destruct (get_today_posts subreddit st0) as [st1 [e1|posts]] eqn:Hc.
  { intros [= <- <-]. now apply raises_collect. }
  destruct (summarize_with_openai _ st1) as [st2 [e2|[generated|]]] eqn:Hs.
  { rewrite summarize_with_openai_spec in Hs. discriminate. }
  2: { cbn [str_add raise]. intros [= <- <-].
       now apply (raises_summarize self subreddit st0 _ _ posts st1). }
  cbn [str_add ret].
  destruct (write_output_file self (subreddit ++ lit ".txt") _ st2)
    as [st3 [e3|[]]] eqn:Hd.
  { intros [= <- <-].
    now apply (raises_persist_digest self subreddit st0 _ _ posts st1 st2
                 generated). }
  destruct (write_output_file self (subreddit ++ lit "-summary.txt") _ st3)
    as [st4 [e4|[]]] eqn:Hw.
  { intros [= <- <-].
    now apply (raises_persist_summary self subreddit st0 _ _ posts st1 st2 st3
                 generated). }
  unfold print at 1.
  destruct (send_telegram_message _ _) as [st5 [e5|[]]] eqn:Hn;
    [|discriminate].
  intros [= <- <-].
  now apply (raises_notify self subreddit st0 _ _ posts st1 st2 st3 st4
               generated).
Qed.

Lemma run_returns {W} `{Collaborators W} (self : RedditSummarizer)
    (subreddit : str) (st : State W) :
  exists (st' : State W) (summary : str),
    run self subreddit st = (st', inr summary).
Proof.
  rewrite run_unfold.
  destruct (run_try self subreddit (after_banner subreddit st))
    as [st' [e|summary]]; eauto.
Qed.

Lemma run_sources_completes {W} `{Collaborators W} (self : RedditSummarizer)
    (sources : list str) :
  forall st : State W,
    run_sources self sources st = (after_runs self sources st, inr tt).
Proof.
  unfold run_sources, after_runs.
  induction sources as [|sub rest IH]; intros st; [reflexivity|].
  cbn [for_each fold_left]. unfold bind at 1 2.
  destruct (run_returns self sub st) as (st' & summary & Hr).
  rewrite Hr. cbn [fst ret]. apply IH.
Qed.

(** C1: when a step of the [try] suite of a run raises an exception, the
    run prints the error and returns the empty string; a run returns in
    every case; and the loop over the sources therefore completes, in the
    state reached by running every source in turn, each one from the state
    the one before it left, whether that one failed or not. *)
Theorem run_absorbs_exceptions {W} `{Collaborators W}
    (self : RedditSummarizer) :
  (forall (subreddit : str) (st st' : State W) (e : Exception),
     run_step_raises self subreddit (after_banner subreddit st) e st' ->
     run self subreddit st = (after_error e st', inr []))
  /\ (forall (subreddit : str) (st : State W),
        exists (st' : State W) (summary : str),
          run self subreddit st = (st', inr summary))
  /\ (forall (sources : list str) (st : State W),
        run_sources self sources st = (after_runs self sources st, inr tt))
  /\ (forall (sub : str) (rest : list str) (st : State W),
        after_runs self (sub :: rest) st
        = after_runs self rest (fst (run self sub st)))
  /\ (forall st : State W,
        main_loop self st = (after_runs self SOURCES st, inr tt)).
Proof.
  split.
  { intros subreddit st st' e Hraise.
    rewrite run_unfold, (run_step_raises_sound _ _ _ _ _ Hraise).
    reflexivity. }
  split; [apply run_returns|].
  split; [apply run_sources_completes|].
  split; [reflexivity|].
  intros st. apply run_sources_completes.
Qed.

(** For the forum of [outage_script], where collecting "wallstreetbets"
    raises. *)
Lemma run_absorbs_exceptions_witness :
  exists st' : State (list Event),
    run_step_raises (H := scripted outage_script) summarizer
      (lit "wallstreetbets") (after_banner (lit "wallstreetbets") start)
      outage st'
    /\ run (H := scripted outage_script) summarizer (lit "wallstreetbets")
         start
       = (after_error outage st', inr []).
Proof.
  exists (fst (get_today_posts (H := scripted outage_script)
                 (lit "wallstreetbets")
                 (after_banner (lit "wallstreetbets") start))).
  split.
  - apply raises_collect. vm_compute. reflexivity.
  - apply (run_absorbs_exceptions (H := scripted outage_script) summarizer).
    apply raises_collect. vm_compute. reflexivity.
Defined.

(** After the failed first source the five others are still collected,
    summarized and sent. *)
Example main_loop_after_outage :
  let final := after_runs (H := scripted outage_script) summarizer SOURCES
                 start in
  omap (fun ev => match ev with Listed sub _ => Some sub | _ => None end)
    (world final) = SOURCES
  /\ length (omap (fun ev => match ev with Sent _ => Some tt | _ => None end)
               (world final)) = 5.
Proof. vm_compute. split; reflexivity. Qed.

(** ** The aggregation pass *)

Lemma str_eqb_eq (a b : str) : str_eqb a b = true <-> a = b.
Proof.
  revert b. induction a as [|x a IH]; intros [|y b]; cbn [str_eqb];
    try (split; [discriminate|congruence]); [tauto|].
  rewrite andb_true_iff, N.eqb_eq, IH. split; [intros [-> ->]|intros [= -> ->]]; auto.
Qed.

Lemma str_le_app (p a b : str) : str_le (p ++ a) (p ++ b) = str_le a b.
Proof.
  induction p as [|x p IH]; [reflexivity|].
  cbn [app str_le]. now rewrite N.ltb_irrefl, N.eqb_refl, IH.
Qed.

Lemma str_le_total (a b : str) : str_le a b = false -> str_le b a = true.
Proof.
  revert b. induction a as [|x a IH]; intros [|y b]; cbn [str_le];
    try discriminate; try reflexivity.
  intros H. apply orb_false_iff in H as [Hlt H].
  apply N.ltb_ge in Hlt.
  destruct (N.eqb_spec x y) as [->|Hne].
  - cbn [andb] in H. rewrite N.ltb_irrefl, N.eqb_refl. cbn. now apply IH.
  - replace (y <? x)%N with true; [reflexivity|].
    symmetry. apply N.ltb_lt. lia.
Qed.

Lemma str_le_trans (a b c : str) :
  str_le a b = true -> str_le b c = true -> str_le a c = true.
Proof.
  revert b c. induction a as [|x a IH]; intros [|y b] [|z c]; cbn [str_le];
    try discriminate; try reflexivity.
  rewrite !orb_true_iff, !andb_true_iff, !N.ltb_lt, !N.eqb_eq.
  intros [Hxy|[-> Hab]] [Hyz|[-> Hbc]].
  - left. lia.
  - now left.
  - now left.
  - right. split; [reflexivity|]. eapply IH; eassumption.
Qed.

Lemma path_join_relative (folder name : str) :
  ~ In SEP name -> path_join folder name = folder_prefix folder ++ name.
Proof.
  intros Hsep. unfold path_join, folder_prefix.
  replace (startswith [SEP] name) with false.
  - destruct (negb (truthy_str folder) || endswith [SEP] folder);
      [reflexivity|now rewrite <- app_assoc].
  - destruct name as [|c name]; [reflexivity|]. cbn [startswith].
    destruct (N.eqb_spec SEP c) as [<-|Hne]; [|reflexivity].
    exfalso. apply Hsep. now left.
Qed.

(** Reading the path of an entry of the folder gives that entry. *)
Lemma find_entry (folder : str) (dir : Directory) (name : str)
    (file : FileRead) :
  well_formed_dir dir -> In (name, file) dir ->
  List.find (fun entry => str_eqb (path_join folder (fst entry))
                            (path_join folder name)) dir
  = Some (name, file).
Proof.
  intros [Hnd Hsep]. induction dir as [|[n0 f0] dir IH]; intros Hin;
    [destruct Hin|].
  cbn [map fst] in Hnd. apply NoDup_cons in Hnd as [Hn0 Hnd].
  apply Forall_cons in Hsep as [Hs0 Hsep].
  assert (Hname : ~ In SEP name).
  { destruct Hin as [[= <- <-]|Hin]; [exact Hs0|].
    rewrite Forall_forall in Hsep.
    apply (Hsep (name, file)). now apply list_elem_of_In. }
  cbn [List.find fst].
  destruct (str_eqb (path_join folder n0) (path_join folder name)) eqn:Heq.
  - apply str_eqb_eq in Heq.
    rewrite !path_join_relative in Heq by assumption.
    apply app_inv_head in Heq. subst n0.
    destruct Hin as [[= <-]|Hin]; [reflexivity|].
    exfalso. apply Hn0. apply list_elem_of_In.
    change name with (fst (name, file)). now apply in_map.
  - destruct Hin as [[= <- <-]|Hin].
    + assert (str_eqb (path_join folder n0) (path_join folder n0) = true)
        by now apply str_eqb_eq.
      congruence.
    + now apply IH.
Qed.

Lemma read_chunks_entries (folder : str) (dir : Directory)
    (entries : list (str * FileRead)) :
  well_formed_dir dir ->
  (forall entry, In entry entries -> In entry dir) ->
  forall chunks : list str,
    read_chunks folder dir (map (fun entry => path_join folder (fst entry))
                              entries) chunks
    = chunks ++ trimmed_contents entries.
Proof.
  intros Hwf. induction entries as [|[name file] rest IH]; intros Hin chunks;
    cbn [map read_chunks trimmed_contents fst]; [now rewrite app_nil_r|].
  unfold open_read.
  rewrite (find_entry folder dir name file Hwf) by (apply Hin; now left).
  destruct file as [content|e]; rewrite IH by (intros; apply Hin; now right);
    [now rewrite <- app_assoc|reflexivity].
Qed.

(** The paths are read in the order of the file names. *)
Lemma sorted_paths (folder : str) (dir : Directory) :
  well_formed_dir dir ->
  sorted str_le (glob_summaries folder dir)
  = map (fun entry => path_join folder (fst entry))
      (sorted name_le (summary_entries dir)).
Proof.
  intros [_ Hsep]. unfold glob_summaries, summary_entries.
  assert (Hnames :
    map (path_join folder) (List.filter is_summary_name (map fst dir))
    = map (fun entry => folder_prefix folder ++ fst entry)
        (List.filter (fun entry => is_summary_name (fst entry)) dir)).
  { clear - Hsep. induction dir as [|[n f] dir IH]; [reflexivity|].
    apply Forall_cons in Hsep as [Hs0 Hsep].
    cbn [map List.filter fst]. destruct (is_summary_name n); cbn [map fst];
      rewrite IH by assumption; [|reflexivity].
    now rewrite path_join_relative. }
  rewrite Hnames.
  rewrite (sorted_map name_le str_le)
    by (intros x y; apply str_le_app).
  apply map_ext_in. intros [n f] Hin. cbn [fst].
  symmetry. apply path_join_relative.
  apply (Permutation_in _ (sorted_Permutation name_le _)) in Hin.
  apply filter_In in Hin as [Hin _].
  rewrite Forall_forall in Hsep. apply (Hsep (n, f)).
  now apply list_elem_of_In.
Qed.

Lemma collect_summaries_sorted (folder : str) (dir : Directory) :
  well_formed_dir dir ->
  collect_summaries_in_folder folder dir
  = join [LF; LF]
      (List.filter truthy_str
         (trimmed_contents (sorted name_le (summary_entries dir)))).
Proof.
  intros Hwf. unfold collect_summaries_in_folder.
  rewrite (sorted_paths folder dir Hwf), read_chunks_entries; [reflexivity|exact Hwf|].
  intros entry Hin.
  apply (Permutation_in _ (sorted_Permutation name_le _)) in Hin.
  now apply filter_In in Hin as [Hin _].
Qed.

Lemma name_le_total (x y : str * FileRead) :
  name_le x y = false -> name_le y x = true.
Proof. apply str_le_total. Qed.

Lemma name_le_trans (x y z : str * FileRead) :
  name_le x y = true -> name_le y z = true -> name_le x z = true.
Proof. apply str_le_trans. Qed.

(** C7, as the code has it: for a folder whose name holds none of the
    pattern characters of [glob], the aggregation pass goes over the
    per-source summary artifacts of the folder in lexicographic order of
    file name,
    passes over those that cannot be read, trims each content read, drops
    the ones left empty and joins the rest with a blank line between them;
    when the summary artifacts present are stocks-summary.txt and
    wallstreetbets-summary.txt, both readable and not blank, the result is
    the trimmed content of the first, a blank line, and the trimmed content
    of the second. *)
Theorem collect_summaries_ordered (folder : str) (dir : Directory) :
  has_magic folder = false ->
  well_formed_dir dir ->
  exists order : list (str * FileRead),
    Permutation order (summary_entries dir)
    /\ StronglySorted (fun e1 e2 => str_le (fst e1) (fst e2) = true) order
    /\ collect_summaries_in_folder folder dir
       = join [LF; LF] (List.filter truthy_str (trimmed_contents order))
    /\ (forall stocks wallstreetbets : str,
          Permutation (summary_entries dir)
            [(lit "stocks-summary.txt", Readable stocks);
             (lit "wallstreetbets-summary.txt", Readable wallstreetbets)] ->
          strip stocks <> [] -> strip wallstreetbets <> [] ->
          collect_summaries_in_folder folder dir
          = strip stocks ++ [LF; LF] ++ strip wallstreetbets).
Proof.
  intros _ Hwf.
  pose proof (sorted_Permutation name_le (summary_entries dir)) as Hperm.
  pose proof (sorted_StronglySorted name_le name_le_total name_le_trans
                (summary_entries dir)) as Hsort.
  pose proof (collect_summaries_sorted folder dir Hwf) as Hres.
  exists (sorted name_le (summary_entries dir)).
  split; [exact Hperm|]. split; [exact Hsort|]. split; [exact Hres|].
  intros stocks wallstreetbets Htwo Hs Hw. rewrite Hres.
  pose proof (Permutation_sym (Permutation_trans Hperm Htwo)) as Hboth.
  clear Hperm Hres.
  remember (sorted name_le (summary_entries dir)) as order eqn:Horder.
  clear Horder.
  apply Permutation_length_2_inv in Hboth as [-> | ->].
  - cbn [trimmed_contents List.filter].
    destruct (strip stocks), (strip wallstreetbets); try congruence.
    reflexivity.
  - exfalso. apply StronglySorted_inv in Hsort as [_ Hhd].
    apply Forall_inv in Hhd. vm_compute in Hhd. discriminate.
Qed.

(** For a day's folder holding the digests and summaries of two sources. *)
Lemma collect_summaries_ordered_witness :
  has_magic (output_dir summarizer) = false
  /\ well_formed_dir (day_folder (Readable padded_stocks)
                        (Readable (lit "2) buy")))
  /\ collect_summaries_in_folder (output_dir summarizer)
       (day_folder (Readable padded_stocks) (Readable (lit "2) buy")))
     = lit "1) hold" ++ [LF; LF] ++ lit "2) buy".
Proof.
  assert (Hwf : well_formed_dir (day_folder (Readable padded_stocks)
                                   (Readable (lit "2) buy")))).
  { split.
    - repeat constructor; cbn; rewrite ?list_elem_of_In; cbn;
        intuition discriminate.
    - repeat constructor; cbn; intuition discriminate. }
  split; [reflexivity|]. split; [exact Hwf|].
  destruct (collect_summaries_ordered (output_dir summarizer) _ eq_refl Hwf)
    as (order & _ & _ & _ & Htwo).
  rewrite (Htwo padded_stocks (lit "2) buy")).
  - reflexivity.
  - apply perm_swap.
  - discriminate.
  - discriminate.
Defined.

(** C7 as stated fails on that folder: the stocks summary starts with a
    line break and ends with three, and the result neither starts with it
    nor is the two contents with a blank line between them. *)
Lemma collect_summaries_counterexample :
  let dir := day_folder (Readable padded_stocks) (Readable (lit "2) buy")) in
  collect_summaries_in_folder (output_dir summarizer) dir
  = lit "1) hold" ++ [LF; LF] ++ lit "2) buy"
  /\ collect_summaries_in_folder (output_dir summarizer) dir
     <> padded_stocks ++ [LF; LF] ++ lit "2) buy"
  /\ startswith padded_stocks
       (collect_summaries_in_folder (output_dir summarizer) dir) = false.
Proof. cbv zeta. split; [reflexivity|]. split; [discriminate|reflexivity]. Qed.

(** ** The formatter on the object store *)

Lemma emit_blocks_spec (h : gmap loc Obj) (entries : list (loc * Post)) :
  Forall (fun lp => get_dict h (fst lp) = Some (snd lp)) entries ->
  forall (start : nat) (summary_text : str),
    emit_blocks h (enumerate (map fst entries) start) summary_text
    = Some (fold_left post_block (enumerate (map snd entries) start)
              summary_text).
Proof.
  induction 1 as [|[l p] entries Hl _ IH]; intros start summary_text;
    [reflexivity|].
  cbn [map fst snd enumerate emit_blocks fold_left] in *.
  rewrite Hl. cbn. apply IH.
Qed.

Lemma keys_read (h : gmap loc Obj) (entries : list (loc * Post)) :
  Forall (fun lp => get_dict h (fst lp) = Some (snd lp)) entries ->
  mapM (fun l => post ← get_dict h l; Some (l, score post)) (map fst entries)
  = Some (map (fun lp => (fst lp, score (snd lp))) entries).
Proof.
  intros Hall. apply mapM_Some.
  induction Hall as [|[l p] entries Hl _ IH]; cbn [map fst snd];
    constructor; [|exact IH].
  cbn [fst snd] in Hl. now rewrite Hl.
Qed.

(** C10: called on a reference to a list object whose items refer to post
    dicts, the formatter returns the digest of those posts and leaves every
    object of the store as it was: the list holds the same references in
    the same order and each dict the same fields; the one change to the
    store is the ranked list, allocated where no object was. *)
Theorem prepare_posts_store_frame (subreddit : str) (posts : loc)
    (h : gmap loc Obj) (entries : list (loc * Post)) :
  h !! posts = Some (OList (map fst entries)) ->
  Forall (fun lp => h !! fst lp = Some (ODict (snd lp))) entries ->
  exists h' : gmap loc Obj,
    prepare_posts_for_summary_store subreddit posts h
    = Some (h', prepare_posts_for_summary subreddit (map snd entries))
    /\ (forall (l : loc) (o : Obj), h !! l = Some o -> h' !! l = Some o)
    /\ h' !! posts = Some (OList (map fst entries))
    /\ Forall (fun lp => h' !! fst lp = Some (ODict (snd lp))) entries
    /\ (h' = h
        \/ exists (ranked : loc) (items : list loc),
             h !! ranked = None /\ h' = <[ranked := OList items]> h
             /\ Permutation items (map fst entries)).
Proof.
  intros Hlist Hdicts.
  unfold prepare_posts_for_summary_store, get_list. rewrite Hlist. cbn.
  destruct entries as [|entry0 entries0] eqn:Hentries.
  { exists h. cbn. repeat split; auto. }
  rewrite <- Hentries in *.
  assert (Hne : map fst entries <> []) by (rewrite Hentries; discriminate).
  assert (Hne' : map snd entries <> []) by (rewrite Hentries; discriminate).
  clear Hentries entry0 entries0.
  destruct (map fst entries) as [|l0 ls] eqn:Hlocs; [congruence|].
  rewrite <- Hlocs in *. clear Hlocs l0 ls.
  assert (Hget : Forall (fun lp => get_dict h (fst lp) = Some (snd lp)) entries).
  { eapply Forall_impl; [exact Hdicts|]. intros lp Hlp. unfold get_dict.
    now rewrite Hlp. }
  rewrite (keys_read h entries Hget). cbn.
  set (ranked := fresh (dom h)).
  assert (Hfresh : h !! ranked = None)
    by (apply not_elem_of_dom, is_fresh).
  set (le' := fun x y : loc * Post => le_on score (snd x) (snd y)).
  rewrite (sorted_reverse_map le' (le_on snd)
             (fun lp => (fst lp, score (snd lp))) entries)
    by reflexivity.
  rewrite map_map. cbn [fst].
  set (h' := <[ranked := OList (map fst (sorted_reverse le' entries))]> h).
  assert (Hframe : forall l o, h !! l = Some o -> h' !! l = Some o).
  { intros l o Hl. unfold h'. rewrite lookup_insert_ne; [exact Hl|].
    intros ->. congruence. }
  unfold get_list. replace (h' !! ranked)
    with (Some (OList (map fst (sorted_reverse le' entries))))
    by (unfold h'; now rewrite lookup_insert_eq).
  cbn.
  rewrite emit_blocks_spec.
  2: { eapply Permutation_Forall;
         [symmetry; apply sorted_reverse_Permutation|].
       eapply Forall_impl; [exact Hdicts|]. intros lp Hlp. unfold get_dict.
       now rewrite (Hframe _ _ Hlp). }
  cbn. exists h'. split.
  - f_equal. f_equal.
    rewrite <- (sorted_reverse_map le' (le_on score) snd entries)
      by reflexivity.
    unfold prepare_posts_for_summary.
    destruct (map snd entries); [congruence|reflexivity].
  - split; [exact Hframe|]. split; [now apply Hframe|]. split.
    + eapply Forall_impl; [exact Hdicts|]. intros lp. apply Hframe.
    + right. exists ranked, (map fst (sorted_reverse le' entries)).
      split; [exact Hfresh|]. split; [reflexivity|].
      apply Permutation_map, sorted_reverse_Permutation.
Qed.

(** For the store [two_posts_store], whose object 3 lists the posts 1
    and 2. *)
Lemma prepare_posts_store_frame_witness :
  exists h' : gmap loc Obj,
    prepare_posts_for_summary_store (lit "stocks") 3%positive two_posts_store
    = Some (h', prepare_posts_for_summary (lit "stocks")
                  [post_scored "calm" 5; post_scored "surge" 20])
    /\ h' !! 3%positive = Some (OList [1%positive; 2%positive])
    /\ h' !! 1%positive = Some (ODict (post_scored "calm" 5))
    /\ h' !! 2%positive = Some (ODict (post_scored "surge" 20)).
Proof.
  destruct (prepare_posts_store_frame (lit "stocks") 3%positive
              two_posts_store two_posts)
    as (h' & Hrun & _ & Hlist & Hdicts & _).
  - reflexivity.
  - repeat constructor.
  - exists h'. split; [exact Hrun|]. split; [exact Hlist|].
    apply Forall_cons in Hdicts as [H1 Hdicts].
    apply Forall_cons in Hdicts as [H2 _].
    split; [exact H1|exact H2].
Defined.

(** * Further properties of the code *)

(** ** What the collector returns *)

Lemma get_submission_comments_length (forest : CommentForest) :
  length (get_submission_comments forest) <= POST_MAX_COMMENTS.
Proof.
  unfold get_submission_comments.
  destruct (replace_more_raises forest); [cbn; lia|].
  destruct (list_result forest); [cbn; lia|].
  apply collect_comments_length. unfold POST_MAX_COMMENTS. cbn. lia.
Qed.

Lemma post_of_submission_bounds (submission : Submission) :
  length (selftext (post_of_submission submission)) <= 1000
  /\ (exists rest,
        sub_selftext submission
        = selftext (post_of_submission submission) ++ rest)
  /\ length (comments (post_of_submission submission)) <= POST_MAX_COMMENTS.
Proof.
  unfold post_of_submission. cbn [selftext comments].
  split; [|split].
  - destruct (truthy_str (sub_selftext submission)); [|cbn; lia].
    unfold slice_to. rewrite length_firstn. lia.
  - destruct (truthy_str (sub_selftext submission)).
    + exists (skipn 1000 (sub_selftext submission)).
      unfold slice_to. now rewrite firstn_skipn.
    + now exists (sub_selftext submission).
  - apply get_submission_comments_length.
Qed.

(** X1: every post the collector returns carries a body excerpt of at most
    1000 characters, a prefix of the submission's body, and at most 21
    comments; the formatter's cut at 1500 characters therefore leaves the
    excerpt of a collected post whole. *)
Theorem collected_posts_bounded {W} `{Collaborators W} (subreddit : str)
    (st st' : State W) (posts : list Post) :
  get_today_posts subreddit st = (st', inr posts) ->
  Forall (fun post =>
            length (selftext post) <= 1000
            /\ length (comments post) <= POST_MAX_COMMENTS
            /\ slice_to 1500 (selftext post) = selftext post)
    posts.
Proof.
  intros Hrun.
  destruct (get_today_posts_spec subreddit st) as [out Hspec].
  rewrite Hspec in Hrun.
  destruct (broke _); [discriminate|].
  injection Hrun as _ <-.
  apply Forall_map, Forall_forall. intros submission _.
  destruct (post_of_submission_bounds submission) as (Hlen & _ & Hcomments).
  split; [exact Hlen|]. split; [exact Hcomments|].
  unfold slice_to. apply firstn_all2. lia.
Qed.

(** For the forum of [east_script]. *)
Lemma collected_posts_bounded_witness :
  Forall (fun post =>
            length (selftext post) <= 1000
            /\ length (comments post) <= POST_MAX_COMMENTS
            /\ slice_to 1500 (selftext post) = selftext post)
    [post_of_submission (submission_aged "stale" 7 1700000000 90000)].
Proof.
  apply (collected_posts_bounded (H := scripted east_script) (lit "stocks")
           start
           (fst (get_today_posts (H := scripted east_script) (lit "stocks")
                   start))).
  vm_compute. reflexivity.
Defined.





(** ** What a run does, step by step *)

Lemma run_try_steps {W} `{Collaborators W} (self : RedditSummarizer)
    (subreddit : str) (st0 st1 : State W) (posts : list Post) :
  get_today_posts subreddit st0 = (st1, inr posts) ->
  run_try self subreddit st0
  = let digest := prepare_posts_for_summary subreddit posts in
    let '(st2, r) := summarize_with_openai digest st1 in
    match r with
    | inl e => (st2, inl e)
    | inr None => (st2, inl TypeError_concat_None)
    | inr (Some generated) =>
        let summary := summary_title subreddit ++ generated in
        let '(w3, r1) := open_write (digest_path self subreddit) digest
                           (world st2) in
        match r1 with
        | inl e => ({| world := w3; stdout := stdout st2 |}, inl e)
        | inr _ =>
            let '(w4, r2) := open_write (summary_path self subreddit) summary
                               w3 in
            match r2 with
            | inl e => ({| world := w4; stdout := stdout st2 |}, inl e)
            | inr _ =>
                let '(w5, r3) := telegram_post summary w4 in
                ({| world := w5; stdout := stdout st2 ++ [rule_line] |},
                 match r3 with
                 | inl e => inl e
                 | inr _ => inr summary
                 end)
            end
        end
    end.
Proof.
  intros Hc. unfold run_try, bind. fold (summary_title subreddit).
  rewrite Hc. cbv zeta.
  destruct (summarize_with_openai _ st1) as [st2 [e|[generated|]]];
    [reflexivity| |reflexivity].
  cbn [str_add ret].
  unfold write_output_file, send_telegram_message, call, print, printed, ret,
    digest_path, summary_path, rule_line.
  cbn [world stdout].
  destruct (open_write _ _ (world st2)) as [w3 [e|[]]]; [reflexivity|].
  cbn [world stdout].
  destruct (open_write _ _ w3) as [w4 [e|[]]]; [reflexivity|].
  cbn [world stdout].
  destruct (telegram_post _ w4) as [w5 [e|[]]]; reflexivity.
Qed.

Lemma summarize_after_backend {W} `{Collaborators W} (text : str)
    (st : State W) :
  summarize_with_openai text st
  = ({| world := fst (backend_call text (world st));
        stdout := stdout st ++ [generating_line] |},
     inr match snd (backend_call text (world st)) with
         | inl e => Some (lit "Error generating summary: " ++ exc_str e)
         | inr response =>
             match choices response with
             | content :: _ => content
             | [] => Some (lit "Error generating summary: "
                           ++ exc_str IndexError)
             end
         end).
Proof. apply summarize_with_openai_spec. Qed.

(** X3: when the listing of a source breaks with an exception, at whatever
    point, the collector raises it and the run returns the empty string in
    the world the collector left, with the error as its last printed line:
    once the collection has failed the backend is not asked, no file is
    written and nothing is sent. *)
Theorem run_listing_failure {W} `{Collaborators W} (self : RedditSummarizer)
    (subreddit : str) (st : State W) (e : Exception) :
  broke (snd (subreddit_new subreddit SUBREDDIT_MAX_POSTS (world st)))
  = Some e ->
  exists st1 : State W,
    get_today_posts subreddit (after_banner subreddit st) = (st1, inl e)
    /\ run self subreddit st
       = ({| world := world st1;
             stdout := stdout st1 ++ [lit "Error: " ++ exc_str e] |},
          inr []).
Proof.
  intros Hbroke.
  destruct (get_today_posts_spec subreddit (after_banner subreddit st))
    as [out Hc].
  change (world (after_banner subreddit st)) with (world st) in Hc.
  rewrite Hbroke in Hc.
  eexists. split; [exact Hc|].
  rewrite run_unfold.
  rewrite (run_step_raises_sound self subreddit _ _ _
             (raises_collect self subreddit _ _ _ Hc)).
  reflexivity.
Qed.

(** For the forum of [outage_script] and the source "wallstreetbets". *)
Lemma run_listing_failure_witness :
  exists st1 : State (list Event),
    get_today_posts (H := scripted outage_script) (lit "wallstreetbets")
      (after_banner (lit "wallstreetbets") start) = (st1, inl outage)
    /\ run (H := scripted outage_script) summarizer (lit "wallstreetbets")
         start
       = ({| world := world st1;
             stdout := stdout st1
                       ++ [lit "Error: received 503 HTTP response"] |},
          inr []).
Proof.
  destruct (run_listing_failure (H := scripted outage_script) summarizer
              (lit "wallstreetbets") start outage eq_refl)
    as (st1 & Hc & Hrun).
  exists st1. split; [exact Hc|exact Hrun].
Defined.

(** X4: when the posts are collected, the backend answers, both writes and
    the notification succeed, the run returns the title line followed by
    the content of the first choice; that same text is what it wrote to
    the summary artifact and what it sent, after writing the formatted
    digest to the digest artifact; the calls are made in that order. *)
Theorem run_delivers {W} `{Collaborators W} (self : RedditSummarizer)
    (subreddit : str) (st st1 : State W) (posts : list Post)
    (w2 w3 w4 w5 : W) (response : Response) (generated : str)
    (rest : list (option str)) :
  get_today_posts subreddit (after_banner subreddit st) = (st1, inr posts) ->
  backend_call (prepare_posts_for_summary subreddit posts) (world st1)
  = (w2, inr response) ->
  choices response = Some generated :: rest ->
  open_write (digest_path self subreddit)
    (prepare_posts_for_summary subreddit posts) w2 = (w3, inr tt) ->
  open_write (summary_path self subreddit)
    (summary_title subreddit ++ generated) w3 = (w4, inr tt) ->
  telegram_post (summary_title subreddit ++ generated) w4 = (w5, inr tt) ->
  run self subreddit st
  = ({| world := w5; stdout := stdout st1 ++ [generating_line; rule_line] |},
     inr (summary_title subreddit ++ generated)).
Proof.
  intros Hc Hb Hch Hw1 Hw2 Hn.
  rewrite run_unfold, (run_try_steps self subreddit _ _ _ Hc).
  cbv zeta. rewrite summarize_after_backend, Hb. cbn [fst snd].
  rewrite Hch. cbn [world stdout]. rewrite Hw1, Hw2, Hn.
  now rewrite <- app_assoc.
Qed.

(** For the source "stocks" of [outage_script], which has nothing new. *)
Lemma run_delivers_witness :
  run (H := scripted outage_script) summarizer (lit "stocks") start
  = ({| world := wrote_summary outage_script (lit "stocks") (lit "1) $TSLA")
                 ++ [Sent (summary_title (lit "stocks") ++ lit "1) $TSLA")];
        stdout := stdout (collected outage_script (lit "stocks"))
                  ++ [generating_line; rule_line] |},
     inr (summary_title (lit "stocks") ++ lit "1) $TSLA")).
Proof.
  apply (run_delivers (H := scripted outage_script) summarizer (lit "stocks")
           start (collected outage_script (lit "stocks")) []
           (asked outage_script (lit "stocks"))
           (wrote_digest outage_script (lit "stocks"))
           (wrote_summary outage_script (lit "stocks") (lit "1) $TSLA"))
           _ {| choices := [Some (lit "1) $TSLA")] |} (lit "1) $TSLA") []);
    vm_compute; reflexivity.
Defined.

(** X5: when the backend call of a run raises, the run does not come back
    empty: it writes the digest, then writes and sends the title line
    followed by "Error generating summary: " and the description of the
    failure, and returns that text. *)
Theorem run_backend_failure_delivered {W} `{Collaborators W}
    (self : RedditSummarizer) (subreddit : str) (st st1 : State W)
    (posts : list Post) (w2 w3 w4 w5 : W) (e : Exception) :
  get_today_posts subreddit (after_banner subreddit st) = (st1, inr posts) ->
  backend_call (prepare_posts_for_summary subreddit posts) (world st1)
  = (w2, inl e) ->
  open_write (digest_path self subreddit)
    (prepare_posts_for_summary subreddit posts) w2 = (w3, inr tt) ->
  open_write (summary_path self subreddit)
    (summary_title subreddit ++ lit "Error generating summary: " ++ exc_str e)
    w3 = (w4, inr tt) ->
  telegram_post
    (summary_title subreddit ++ lit "Error generating summary: " ++ exc_str e)
    w4 = (w5, inr tt) ->
  run self subreddit st
  = ({| world := w5; stdout := stdout st1 ++ [generating_line; rule_line] |},
     inr (summary_title subreddit ++ lit "Error generating summary: "
          ++ exc_str e))
  /\ summary_title subreddit ++ lit "Error generating summary: " ++ exc_str e
     <> [].
Proof.
  intros Hc Hb Hw1 Hw2 Hn. split; [|discriminate].
  rewrite run_unfold, (run_try_steps self subreddit _ _ _ Hc).
  cbv zeta. rewrite summarize_after_backend, Hb. cbn [fst snd].
  cbn [world stdout]. rewrite Hw1, Hw2, Hn.
  now rewrite <- app_assoc.
Qed.

(** For the backend of [quota_script]. *)
Lemma run_backend_failure_delivered_witness :
  snd (run (H := scripted quota_script) summarizer (lit "stocks") start)
  = inr (summary_title (lit "stocks")
         ++ lit "Error generating summary: Error code: 429 - insufficient_quota").
Proof.
  destruct (run_backend_failure_delivered (H := scripted quota_script)
              summarizer (lit "stocks") start
              (collected quota_script (lit "stocks")) []
              (asked quota_script (lit "stocks"))
              (wrote_digest quota_script (lit "stocks"))
              (wrote_summary quota_script (lit "stocks")
                 (lit "Error generating summary: " ++ exc_str quota))
              (wrote_summary quota_script (lit "stocks")
                 (lit "Error generating summary: " ++ exc_str quota)
               ++ [Sent (summary_title (lit "stocks")
                         ++ lit "Error generating summary: "
                         ++ exc_str quota)])
              quota) as [Hrun _];
    [vm_compute; reflexivity..|].
  rewrite Hrun. reflexivity.
Defined.

(** X6: when the first choice of the backend's answer has no content, the
    run returns the empty string, and it stops before persisting: after
    the backend call no file is written and nothing is sent. *)
Theorem run_without_content {W} `{Collaborators W} (self : RedditSummarizer)
    (subreddit : str) (st st1 : State W) (posts : list Post) (w2 : W)
    (response : Response) (rest : list (option str)) :
  get_today_posts subreddit (after_banner subreddit st) = (st1, inr posts) ->
  backend_call (prepare_posts_for_summary subreddit posts) (world st1)
  = (w2, inr response) ->
  choices response = None :: rest ->
  run self subreddit st
  = ({| world := w2;
        stdout := stdout st1
                  ++ [generating_line;
                      lit "Error: " ++ exc_str TypeError_concat_None] |},
     inr []).
Proof.
  intros Hc Hb Hch.
  rewrite run_unfold, (run_try_steps self subreddit _ _ _ Hc).
  cbv zeta. rewrite summarize_after_backend, Hb. cbn [fst snd].
  rewrite Hch. unfold after_error, printed. cbn [world stdout].
  now rewrite <- app_assoc.
Qed.

(** For the backend of [silent_script]. *)
Lemma run_without_content_witness :
  run (H := scripted silent_script) summarizer (lit "stocks") start
  = ({| world := asked silent_script (lit "stocks");
        stdout := stdout (collected silent_script (lit "stocks"))
                  ++ [generating_line;
                      lit "Error: " ++ exc_str TypeError_concat_None] |},
     inr []).
Proof.
  apply (run_without_content (H := scripted silent_script) summarizer
           (lit "stocks") start (collected silent_script (lit "stocks")) []
           (asked silent_script (lit "stocks")) {| choices := [None] |} []);
    vm_compute; reflexivity.
Defined.

(** X7: when the notification raises, the run returns the empty string
    although both artifacts have been written: the world it leaves is the
    one after the two writes and the failed send. *)
Theorem run_notification_failure {W} `{Collaborators W}
    (self : RedditSummarizer) (subreddit : str) (st st1 : State W)
    (posts : list Post) (w2 w3 w4 w5 : W) (response : Response)
    (generated : str) (rest : list (option str)) (e : Exception) :
  get_today_posts subreddit (after_banner subreddit st) = (st1, inr posts) ->
  backend_call (prepare_posts_for_summary subreddit posts) (world st1)
  = (w2, inr response) ->
  choices response = Some generated :: rest ->
  open_write (digest_path self subreddit)
    (prepare_posts_for_summary subreddit posts) w2 = (w3, inr tt) ->
  open_write (summary_path self subreddit)
    (summary_title subreddit ++ generated) w3 = (w4, inr tt) ->
  telegram_post (summary_title subreddit ++ generated) w4 = (w5, inl e) ->
  run self subreddit st
  = ({| world := w5;
        stdout := stdout st1
                  ++ [generating_line; rule_line;
                      lit "Error: " ++ exc_str e] |},
     inr []).
Proof.
  intros Hc Hb Hch Hw1 Hw2 Hn.
  rewrite run_unfold, (run_try_steps self subreddit _ _ _ Hc).
  cbv zeta. rewrite summarize_after_backend, Hb. cbn [fst snd].
  rewrite Hch. cbn [world stdout]. rewrite Hw1, Hw2, Hn.
  unfold after_error, printed. cbn [world stdout].
  now rewrite <- !app_assoc.
Qed.

(** For the channel of [muted_script]: the two files are in the world, no
    message is. *)
Lemma run_notification_failure_witness :
  run (H := scripted muted_script) summarizer (lit "stocks") start
  = ({| world := wrote_summary muted_script (lit "stocks") (lit "1) $TSLA");
        stdout := stdout (collected muted_script (lit "stocks"))
                  ++ [generating_line; rule_line;
                      lit "Error: " ++ exc_str channel_down] |},
     inr []).
Proof.
  apply (run_notification_failure (H := scripted muted_script) summarizer
           (lit "stocks") start (collected muted_script (lit "stocks")) []
           (asked muted_script (lit "stocks"))
           (wrote_digest muted_script (lit "stocks"))
           (wrote_summary muted_script (lit "stocks") (lit "1) $TSLA"))
           _ {| choices := [Some (lit "1) $TSLA")] |} (lit "1) $TSLA") []);
    vm_compute; reflexivity.
Defined.

(** ** The summarizer on every answer of the backend *)

(** X8: the summarizer returns in every case, having printed one line and
    called the backend once with the fixed instruction followed by the
    text; an answer with choices gives the content of the first one as it
    is, and an answer without any choice gives the text "Error generating
    summary: list index out of range". *)
Theorem summarize_returns {W} `{Collaborators W} (text : str) (st : State W) :
  exists v : option str,
    summarize_with_openai text st
    = ({| world := fst (backend_call text (world st));
          stdout := stdout st ++ [generating_line] |}, inr v)
    /\ (forall (response : Response) (content : option str)
               (rest : list (option str)),
          snd (backend_call text (world st)) = inr response ->
          choices response = content :: rest -> v = content)
    /\ (forall response : Response,
          snd (backend_call text (world st)) = inr response ->
          choices response = [] ->
          v = Some (lit "Error generating summary: list index out of range")).
Proof.
  rewrite summarize_after_backend. eexists. split; [reflexivity|].
  split.
  - intros response content rest -> ->. reflexivity.
  - intros response -> ->. reflexivity.
Qed.

(** For a backend that answers with no choice at all. *)
Lemma summarize_returns_witness :
  snd (summarize_with_openai
         (H := scripted
                 {| on_listing := on_listing silent_script;
                    the_clock := the_clock silent_script;
                    on_chat := fun _ => inr {| choices := [] |};
                    on_write := on_write silent_script;
                    on_post := on_post silent_script |})
         (lit "text") start)
  = inr (Some (lit "Error generating summary: list index out of range")).
Proof.
  destruct (summarize_returns
              (H := scripted
                      {| on_listing := on_listing silent_script;
                         the_clock := the_clock silent_script;
                         on_chat := fun _ => inr {| choices := [] |};
                         on_write := on_write silent_script;
                         on_post := on_post silent_script |})
              (lit "text") start) as (v & Hrun & _ & Hnone).
  rewrite Hrun. cbn [snd]. f_equal.
  now apply (Hnone {| choices := [] |}).
Defined.

(** ** Artifact names and the pattern of the aggregation pass *)

Lemma startswith_app (p q s : str) :
  startswith (p ++ q) (p ++ s) = startswith q s.
Proof.
  induction p as [|x p IH]; [reflexivity|].
  cbn [app startswith]. now rewrite N.eqb_refl, IH.
Qed.

Lemma startswith_dot_app (sub suffix : str) (c : char) :
  c <> 46%N ->
  startswith (lit ".") (sub ++ c :: suffix) = startswith (lit ".") sub.
Proof.
  intros Hc. change (lit ".") with [46%N].
  destruct sub as [|d sub]; cbn [app startswith].
  - destruct (N.eqb_spec 46 c); [congruence|reflexivity].
  - reflexivity.
Qed.

Lemma endswith_app (suffix s : str) : endswith suffix (s ++ suffix) = true.
Proof.
  unfold endswith. rewrite rev_app_distr.
  rewrite <- (app_nil_r (rev suffix)) at 1.
  now rewrite startswith_app.
Qed.

Lemma hidden_summary_name (sub : str) :
  startswith (lit ".") (sub ++ lit "-summary.txt")
  = startswith (lit ".") sub.
Proof.
  change (lit "-summary.txt") with (45%N :: lit "summary.txt").
  now apply startswith_dot_app.
Qed.

(** X9: the summary artifact a run writes for a source is one the
    aggregation pass picks up, unless the source name starts with a dot;
    the digest artifact of a source is picked up only if the source name
    ends with "-summary"; the aggregate "summary.txt" never is; and, for an
    output folder whose name holds no pattern character of [glob] and does
    not end with a doubled separator, the path under which a matching entry
    of the folder is read is the path under which a run with that output
    folder writes it. *)
Theorem artifact_names_and_pattern (folder sub : str) (dir : Directory) :
  is_summary_name (sub ++ lit "-summary.txt")
  = negb (startswith (lit ".") sub)
  /\ (is_summary_name (sub ++ lit ".txt") = true ->
      endswith (lit "-summary") sub = true)
  /\ is_summary_name (lit "summary.txt") = false
  /\ (has_magic folder = false ->
      endswith [SEP; SEP] folder = false ->
      In (sub ++ lit "-summary.txt") (map fst dir) ->
      startswith (lit ".") sub = false ->
      In (summary_path {| output_dir := folder |} sub)
        (glob_summaries folder dir)).
Proof.
  assert (Hname : is_summary_name (sub ++ lit "-summary.txt")
                  = negb (startswith (lit ".") sub)).
  { unfold is_summary_name.
    now rewrite hidden_summary_name, endswith_app, andb_true_r. }
  split; [exact Hname|]. split; [|split; [reflexivity|]].
  - unfold is_summary_name, endswith. intros Hm.
    apply andb_true_iff in Hm as [_ Hm]. revert Hm.
    change (lit "-summary.txt") with (lit "-summary" ++ lit ".txt").
    now rewrite !rev_app_distr, startswith_app.
  - intros _ _ Hin Hdot. unfold summary_path, glob_summaries.
    cbn [output_dir].
    apply in_map, filter_In. split; [exact Hin|].
    now rewrite Hname, Hdot.
Qed.

(** For the source "stocks" and the day's folder of two sources. *)
Lemma artifact_names_and_pattern_witness :
  In (summary_path summarizer (lit "stocks"))
    (glob_summaries (output_dir summarizer)
       (day_folder (Readable padded_stocks) (Readable (lit "2) buy")))).
Proof.
  destruct (artifact_names_and_pattern (output_dir summarizer) (lit "stocks")
              (day_folder (Readable padded_stocks) (Readable (lit "2) buy"))))
    as (_ & _ & _ & Hfound).
  apply Hfound; [reflexivity|reflexivity| |reflexivity].
  right; right; left. reflexivity.
Defined.

(** ** Results that do not depend on the order of the input *)

Lemma filter_Permutation_bool {A} (f : A -> bool) (l l' : list A) :
  Permutation l l' -> Permutation (List.filter f l) (List.filter f l').
Proof.
  induction 1 as [|x l l' _ IH|x y l|l l' l'' _ IH1 _ IH2];
    cbn [List.filter].
  - constructor.
  - destruct (f x); [now constructor|exact IH].
  - destruct (f x), (f y); try reflexivity. apply perm_swap.
  - now transitivity (List.filter f l').
Qed.

Lemma NoDup_map_inj {A B} (f : A -> B) (l : list A) (x y : A) :
  NoDup (map f l) -> In x l -> In y l -> f x = f y -> x = y.
Proof.
  induction l as [|z l IH]; cbn [map]; intros Hnd Hx Hy Hf; [destruct Hx|].
  apply NoDup_cons in Hnd as [Hz Hnd]. rewrite list_elem_of_In in Hz.
  destruct Hx as [->|Hx], Hy as [->|Hy]; auto.
  - exfalso. apply Hz. rewrite Hf. now apply in_map.
  - exfalso. apply Hz. rewrite <- Hf. now apply in_map.
Qed.

(** Two arrangements of the same elements sort to the same list when no
    two distinct elements compare as equal. *)
Lemma sorted_unique {A} (le : A -> A -> bool) (l l' : list A) :
  (forall x y, le x y = false -> le y x = true) ->
  (forall x y z, le x y = true -> le y z = true -> le x z = true) ->
  (forall x y, In x l -> In y l -> le x y = true -> le y x = true -> x = y) ->
  Permutation l l' ->
  sorted le l = sorted le l'.
Proof.
  intros Htotal Htrans Hanti Hperm.
  apply (StronglySorted_unique_strong (fun x y => le x y = true)).
  - intros x y Hx Hy. rewrite list_elem_of_In in Hx, Hy.
    apply Hanti.
    + now apply (Permutation_in _ (sorted_Permutation le l)).
    + apply (Permutation_in _ (sorted_Permutation le l')) in Hy.
      now apply (Permutation_in _ (Permutation_sym Hperm)).
  - now apply sorted_StronglySorted.
  - now apply sorted_StronglySorted.
  - now rewrite !sorted_Permutation.
Qed.

Lemma str_le_antisym (a b : str) :
  str_le a b = true -> str_le b a = true -> a = b.
Proof.
  revert b. induction a as [|x a IH]; intros [|y b]; cbn [str_le];
    try discriminate; [reflexivity|].
  rewrite !orb_true_iff, !andb_true_iff, !N.ltb_lt, !N.eqb_eq.
  intros [Hxy|[-> Hab]] [Hyx|[Heq Hba]]; try lia.
  f_equal. now apply IH.
Qed.

Lemma well_formed_dir_Permutation (dir dir' : Directory) :
  well_formed_dir dir -> Permutation dir dir' -> well_formed_dir dir'.
Proof.
  intros [Hnd Hsep] Hperm. split.
  - now rewrite <- (Permutation_map fst Hperm).
  - eapply Permutation_Forall; [exact Hperm|exact Hsep].
Qed.

(** X10: the text the aggregation pass returns does not depend on the
    order in which the operating system lists the folder: two listings of
    the same entries give the same text. *)
Theorem collect_summaries_any_listing_order (folder : str)
    (dir dir' : Directory) :
  well_formed_dir dir -> Permutation dir dir' ->
  collect_summaries_in_folder folder dir
  = collect_summaries_in_folder folder dir'.
Proof.
  intros Hwf Hperm.
  pose proof (well_formed_dir_Permutation dir dir' Hwf Hperm) as Hwf'.
  rewrite (collect_summaries_sorted folder dir Hwf),
    (collect_summaries_sorted folder dir' Hwf').
  do 3 f_equal.
  apply sorted_unique.
  - apply name_le_total.
  - apply name_le_trans.
  - intros x y Hx Hy Hxy Hyx.
    apply filter_In in Hx as [Hx _]. apply filter_In in Hy as [Hy _].
    destruct Hwf as [Hnd _].
    apply (NoDup_map_inj fst dir x y Hnd Hx Hy).
    now apply str_le_antisym.
  - now apply filter_Permutation_bool.
Qed.

(** For the day's folder listed in the opposite order. *)
Lemma collect_summaries_any_listing_order_witness :
  collect_summaries_in_folder (output_dir summarizer)
    (day_folder (Readable padded_stocks) (Readable (lit "2) buy")))
  = collect_summaries_in_folder (output_dir summarizer)
      (rev (day_folder (Readable padded_stocks) (Readable (lit "2) buy")))).
Proof.
  apply collect_summaries_any_listing_order.
  - split.
    + repeat constructor; cbn; rewrite ?list_elem_of_In; cbn;
        intuition discriminate.
    + repeat constructor; cbn; intuition discriminate.
  - apply Permutation_rev.
Defined.

Lemma le_on_score_antisym (posts : list Post) (x y : Post) :
  NoDup (map score posts) -> In x posts -> In y posts ->
  le_on score x y = true -> le_on score y x = true -> x = y.
Proof.
  intros Hnd Hx Hy Hxy Hyx. apply (NoDup_map_inj score posts x y Hnd Hx Hy).
  unfold le_on in *. lia.
Qed.

(** X11: when no two posts have the same score, the digest does not depend
    on the order in which the posts are given. *)
Theorem digest_any_input_order (subreddit : str) (posts posts' : list Post) :
  NoDup (map score posts) -> Permutation posts posts' ->
  prepare_posts_for_summary subreddit posts
  = prepare_posts_for_summary subreddit posts'.
Proof.
  intros Hnd Hperm.
  destruct posts as [|p posts].
  { apply Permutation_nil in Hperm. now subst. }
  assert (Hne' : posts' <> []).
  { intros ->. symmetry in Hperm. now apply Permutation_nil in Hperm. }
  rewrite !prepare_posts_blocks by (assumption || discriminate).
  do 4 f_equal. unfold sorted_reverse. f_equal.
  apply sorted_unique.
  - apply le_on_total.
  - apply le_on_trans.
  - intros x y Hx Hy. apply le_on_score_antisym with (posts := p :: posts);
      [exact Hnd|now apply in_rev|now apply in_rev].
  - now rewrite <- !Permutation_rev.
Qed.

(** For two posts scored 5 and 20, given in either order. *)
Lemma digest_any_input_order_witness :
  prepare_posts_for_summary (lit "stocks")
    [post_scored "calm" 5; post_scored "surge" 20]
  = prepare_posts_for_summary (lit "stocks")
      [post_scored "surge" 20; post_scored "calm" 5].
Proof.
  apply digest_any_input_order.
  - repeat constructor; cbn; rewrite ?list_elem_of_In; cbn;
      intuition discriminate.
  - apply perm_swap.
Defined.

(** ** The text handed to the aggregate summary *)

Lemma read_chunks_trimmed (folder : str) (dir : Directory)
    (paths : list str) :
  forall chunks : list str,
    Forall trimmed chunks ->
    Forall trimmed (read_chunks folder dir paths chunks).
Proof.
  induction paths as [|path rest IH]; intros chunks Hacc;
    cbn [read_chunks]; [exact Hacc|].
  destruct (open_read folder dir path) as [e|content]; [now apply IH|].
  apply IH, Forall_app. split; [exact Hacc|].
  constructor; [apply strip_trimmed|constructor].
Qed.

Lemma join_nonempty (sep p : str) (rest : list str) :
  p <> [] -> join sep (p :: rest) <> [].
Proof.
  intros Hp. rewrite join_cons. destruct rest; [exact Hp|].
  destruct p; [congruence|discriminate].
Qed.

Lemma join_trimmed (sep : str) (parts : list str) :
  Forall (fun p => p <> [] /\ trimmed p) parts -> trimmed (join sep parts).
Proof.
  induction 1 as [|p rest [Hp [Hhead Hlast]] Hrest IH].
  - split; intros c x Hx; [discriminate|].
    cbn [join] in Hx. now apply app_cons_not_nil in Hx.
  - rewrite join_cons. destruct rest as [|q rest]; [now split|].
    change (trimmed (p ++ sep ++ join sep (q :: rest))).
    destruct IH as [_ IHlast].
    apply Forall_cons in Hrest as [[Hq _] _].
    split.
    + intros c x Hx. destruct p as [|c0 p]; [congruence|].
      injection Hx as <- _. now apply (Hhead c0 p).
    + intros c front Hx.
      destruct (exists_last (join_nonempty sep q rest Hq)) as (J & cl & HJ).
      assert (Hx' : (p ++ sep ++ J) ++ [cl] = front ++ [c]).
      { rewrite <- Hx, <- !app_assoc. do 2 f_equal. symmetry. exact HJ. }
      apply app_inj_tail in Hx' as [_ <-].
      exact (IHlast cl J HJ).
Qed.

(** X12: the text the aggregation pass returns never starts or ends with a
    whitespace character, whatever the folder holds. *)
Theorem collect_summaries_trimmed (folder : str) (dir : Directory) :
  trimmed (collect_summaries_in_folder folder dir).
Proof.
  unfold collect_summaries_in_folder. apply join_trimmed.
  pose proof (read_chunks_trimmed folder dir
                (sorted str_le (glob_summaries folder dir)) []
                (List.Forall_nil _)) as Hall.
  induction Hall as [|c chunks Hc _ IH]; cbn [List.filter]; [constructor|].
  destruct c as [|x c]; cbn [truthy_str]; [exact IH|].
  constructor; [|exact IH]. split; [discriminate|exact Hc].
Qed.

(** ** More on the comment flattener *)

Lemma collect_comments_prefix (nodes : list CommentNode) :
  forall comments : list str,
    exists rest : list str,
      comments ++ map flatten_body (bodies_of nodes)
      = collect_comments nodes comments ++ rest.
Proof.
  induction nodes as [|c nodes IH]; intros comments;
    cbn [collect_comments bodies_of].
  - now exists [].
  - destruct c as [body| |e]; [|apply IH|eexists; reflexivity].
    destruct (truthy_str body); [|apply IH].
    fold (flatten_body body). cbn [map].
    destruct (POST_MAX_COMMENTS <=? _).
    + exists (map flatten_body (bodies_of nodes)). now rewrite <- app_assoc.
    + destruct (IH (comments ++ [flatten_body body])) as [rest Hrest].
      exists rest. rewrite <- Hrest. now rewrite <- app_assoc.
Qed.

(** X13: whether resolving or traversing the tree raises or not, the
    flattener returns a prefix of the flattened eligible bodies of the
    tree: it never reorders comments, repeats one or returns a text that is
    not the flattening of an eligible body in its place. *)
Theorem flattener_returns_prefix (forest : CommentForest) :
  exists rest : list str,
    map flatten_body (eligible_bodies forest)
    = get_submission_comments forest ++ rest.
Proof.
  unfold get_submission_comments, eligible_bodies, traversed_nodes.
  destruct (replace_more_raises forest); [eexists; reflexivity|].
  destruct (list_result forest) as [e|nodes]; [now exists []|].
  apply (collect_comments_prefix (slice_from1 nodes) []).
Qed.

Lemma splitlines_from_no_break (s : str) :
  forall cur : str,
    Forall (fun c => is_linebreak c = false) s ->
    splitlines_from cur s
    = match rev cur ++ s with [] => [] | line => [line] end.
Proof.
  induction s as [|c rest IH]; intros cur Hs; cbn [splitlines_from].
  - rewrite app_nil_r. destruct cur as [|d cur]; [reflexivity|].
    cbn [rev]. destruct (rev cur ++ [d]) eqn:Hr; [|reflexivity].
    now apply app_eq_nil in Hr as [_ Hr].
  - apply Forall_cons in Hs as [Hc Hs]. rewrite Hc, (IH (c :: cur) Hs).
    cbn [rev]. now rewrite <- app_assoc.
Qed.

Lemma strip_of_trimmed (s : str) : trimmed s -> strip s = s.
Proof.
  intros [Hhead Hlast].
  assert (Hl : lstrip s = s).
  { destruct s as [|c s]; [reflexivity|].
    cbn [lstrip]. now rewrite (Hhead c s). }
  unfold strip. rewrite Hl. unfold rstrip.
  destruct (rev s) as [|c r] eqn:Hr.
  - apply (f_equal (@rev char)) in Hr. now rewrite rev_involutive in Hr.
  - cbn [lstrip]. rewrite (Hlast c (rev r)).
    + rewrite <- Hr. apply rev_involutive.
    + apply (f_equal (@rev char)) in Hr. now rewrite rev_involutive in Hr.
Qed.

(** X14: flattening is idempotent: a comment body that went through the
    flattener comes out of it unchanged. *)
Theorem flatten_body_idempotent (body : str) :
  flatten_body (flatten_body body) = flatten_body body.
Proof.
  pose proof (flatten_body_no_break body) as Hnb.
  assert (Htrim : trimmed (flatten_body body)) by apply strip_trimmed.
  unfold flatten_body at 1. unfold splitlines.
  rewrite (splitlines_from_no_break _ [] Hnb). cbn [rev app].
  destruct (flatten_body body) as [|c s] eqn:Hf; [reflexivity|].
  cbn [join]. now apply strip_of_trimmed.
Qed.

Lemma breaks_to_spaces_Forall (P : char -> Prop) (s : str) :
  P SP ->
  (Forall P s -> Forall P (breaks_to_spaces s))
  /\ (forall c, P c -> Forall P s -> Forall P (breaks_to_spaces (c :: s))).
Proof.
  intros Hsp. induction s as [|d rest [IH1 IH2]].
  - split; [now intros|]. intros c Hc _. cbn [breaks_to_spaces].
    destruct (is_linebreak c); repeat constructor; assumption.
  - split.
    + intros Hs. apply Forall_cons in Hs as [Hd Hs]. now apply IH2.
    + intros c Hc Hs. pose proof Hs as Hs'.
      apply Forall_cons in Hs' as [Hd Hrest].
      change (breaks_to_spaces (c :: d :: rest))
        with (if is_linebreak c
              then if (c =? CR)%N && (d =? LF)%N
                   then SP :: breaks_to_spaces rest
                   else SP :: breaks_to_spaces (d :: rest)
              else c :: breaks_to_spaces (d :: rest)).
      destruct (is_linebreak c);
        [destruct ((c =? CR)%N && (d =? LF)%N)|];
        constructor; auto.
Qed.

Lemma lstrip_all_space (s : str) :
  Forall (fun c => is_space c = true) s -> lstrip s = [].
Proof.
  induction 1 as [|c s Hc _ IH]; cbn [lstrip]; [reflexivity|].
  now rewrite Hc.
Qed.

(** X15: a comment whose body holds only whitespace is not skipped: it is
    flattened to the empty string, and that empty string is returned as a
    comment, after the first element of the list is dropped. *)
Theorem blank_comment_kept (first : CommentNode) (body : str) :
  body <> [] ->
  Forall (fun c => is_space c = true) body ->
  flatten_body body = []
  /\ get_submission_comments
       {| replace_more_raises := None;
          list_result := inr [first; WithBody body] |}
     = [[]].
Proof.
  intros Hne Hsp.
  assert (Hflat : flatten_body body = []).
  { rewrite flatten_body_breaks. unfold strip.
    rewrite lstrip_all_space; [reflexivity|].
    now apply (breaks_to_spaces_Forall (fun c => is_space c = true)). }
  split; [exact Hflat|].
  unfold get_submission_comments. cbn [replace_more_raises list_result].
  cbn [slice_from1 skipn collect_comments].
  replace (truthy_str body) with true
    by (destruct body; [congruence|reflexivity]).
  fold (flatten_body body). rewrite Hflat. reflexivity.
Qed.

(** For a comment made of a space and a line break. *)
Lemma blank_comment_kept_witness :
  get_submission_comments
    {| replace_more_raises := None;
       list_result := inr [NoBody; WithBody [SP; LF]] |}
  = [[]].
Proof.
  apply (blank_comment_kept NoBody [SP; LF]).
  - discriminate.
  - repeat constructor.
Defined.

(** ** The size of a block *)

(** X16: a block is never longer than its five head lines and its end line
    plus 4535 characters: at most 1519 for the body excerpt with its label
    and at most 3016 for the comments with theirs, however long the body
    and the comments are. *)
Theorem post_block_length_bound (i : nat) (post : Post) :
  length (post_block [] (i, post))
  <= length (block_head i post) + length (block_end i) + 4535.
Proof.
  rewrite post_block_parts, !length_app.
  assert (Hbody : length (body_part post) <= 1519).
  { unfold body_part. destruct (truthy_str (selftext post)); [|cbn; lia].
    rewrite !length_app. unfold slice_to. rewrite length_firstn.
    change (length (lit "Post content: ")) with 14.
    change (length (lit "...")) with 3. cbn [length]. lia. }
  assert (Hcomments : length (comments_part post) <= 3016).
  { unfold comments_part. destruct (comments post) as [|c cs]; [cbn; lia|].
    set (joined := join comment_separator (c :: cs)).
    rewrite !length_app.
    change (length (lit "Comments:")) with 9.
    change (length (lit "- ")) with 2. cbn [length].
    destruct (Nat.ltb_spec 3000 (length joined)) as [Hlong|Hshort].
    - rewrite length_app. unfold slice_to. rewrite length_firstn.
      change (length (lit "...")) with 3. lia.
    - lia. }
  lia.
Qed.

(** ** [main] *)

Lemma filter_none {A} (f : A -> bool) (l : list A) :
  (forall x, In x l -> f x = false) -> List.filter f l = [].
Proof.
  induction l as [|x l IH]; intros Hall; cbn [List.filter]; [reflexivity|].
  rewrite (Hall x) by now left. apply IH. intros y Hy. apply Hall. now right.
Qed.

Lemma filter_some {A} (f : A -> bool) (l : list A) (x : A) :
  In x l -> f x = true -> List.filter f l <> [].
Proof.
  intros Hin Hf Hnil.
  assert (Hx : In x (List.filter f l)) by now apply filter_In.
  rewrite Hnil in Hx. destruct Hx.
Qed.

(** X17: when one of the five required variables is unset or empty once
    the environment file is loaded, [main] prints the line about missing
    variables and returns: no folder is made, no source is run and nothing
    is written or sent. *)
Theorem main_stops_without_configuration {W} `{Collaborators W} `{Host W}
    (st : State W) (var : str) :
  In var required_vars ->
  env_missing (load_dotenv (world st)) var = true ->
  main st
  = ({| world := load_dotenv (world st);
        stdout := stdout st ++ [missing_line] |}, inr tt).
Proof.
  intros Hin Hmissing. unfold main, bind, call, ask.
  cbn [world stdout].
  destruct (List.filter (env_missing (load_dotenv (world st))) required_vars)
    eqn:Hfilter.
  - exfalso. exact (filter_some _ _ _ Hin Hmissing Hfilter).
  - reflexivity.
Qed.

(** For [unready_host], whose chat id is empty. *)
Lemma main_stops_without_configuration_witness :
  main (H := scripted outage_script) (H0 := hosted unready_host) start
  = ({| world := []; stdout := [missing_line] |}, inr tt).
Proof.
  apply (main_stops_without_configuration (H := scripted outage_script)
           (H0 := hosted unready_host) start (lit "TELEGRAM_CHAT_ID")).
  - do 4 right. left. reflexivity.
  - reflexivity.
Defined.

(** X18: when the five variables are set, the working directory is known,
    the name of the folder of the day holds no pattern character of
    [glob], and making that folder and the two clients succeeds, [main]
    runs the six sources in turn, none of which can stop it, and then the
    aggregation pass, with the folder of the day
    [<cwd>/output/<date>] as the output folder of the runs and as the
    folder the pass reads; its result is the result of that pass. *)
Theorem main_runs_then_aggregates {W} `{Collaborators W} `{Host W}
    (st : State W) (cwd : str) (w1 w2 : W) :
  (forall var, In var required_vars ->
     env_missing (load_dotenv (world st)) var = false) ->
  getcwd (load_dotenv (world st)) = inr cwd ->
  has_magic (day_output_of cwd (today (load_dotenv (world st)))) = false ->
  makedirs (day_output_of cwd (today (load_dotenv (world st))))
    (load_dotenv (world st)) = (w1, inr tt) ->
  make_clients w1 = (w2, inr tt) ->
  main st
  = aggregate
      {| output_dir := day_output_of cwd (today (load_dotenv (world st))) |}
      (day_output_of cwd (today (load_dotenv (world st))))
      (after_runs
         {| output_dir := day_output_of cwd (today (load_dotenv (world st))) |}
         SOURCES {| world := w2; stdout := stdout st |}).
Proof.
  intros Henv Hcwd _ Hmk Hcl. unfold main, bind at 1 2, call, ask.
  cbn [world stdout]. rewrite (filter_none _ _ Henv).
  unfold bind at 1. cbn [world stdout]. rewrite Hcwd.
  unfold bind at 1. cbn [world stdout].
  fold (day_output_of cwd (today (load_dotenv (world st)))).
  unfold bind at 1. cbn [world stdout]. rewrite Hmk.
  unfold bind at 1. unfold init, bind at 1, call, ret.
  cbn [world stdout]. rewrite Hcl.
  unfold bind at 1. unfold main_loop. rewrite run_sources_completes.
  reflexivity.
Qed.

Lemma aggregate_steps {W} `{Collaborators W} `{Host W}
    (self : RedditSummarizer) (day_output : str) (st : State W) :
  aggregate self day_output st
  = let summaries :=
      collect_summaries_in_folder day_output
        (list_folder day_output (world st)) in
    let '(st2, r) := summarize_with_openai summaries st in
    match r with
    | inl e => (st2, inl e)
    | inr None => (st2, inl TypeError_concat_None)
    | inr (Some generated) =>
        let '(w3, r1) := open_write (aggregate_path self)
                           (aggregate_title ++ generated) (world st2) in
        match r1 with
        | inl e => ({| world := w3; stdout := stdout st2 |}, inl e)
        | inr _ =>
            let '(w4, r2) := telegram_post (aggregate_title ++ generated) w3 in
            ({| world := w4; stdout := stdout st2 |}, r2)
        end
    end.
Proof.
  unfold aggregate, bind, ask. fold aggregate_title. cbv zeta.
  destruct (summarize_with_openai _ st) as [st2 [e|[generated|]]];
    [reflexivity| |reflexivity].
  cbn [str_add ret].
  unfold write_output_file, send_telegram_message, call, aggregate_path.
  cbn [world stdout].
  destruct (open_write _ _ (world st2)) as [w3 [e|[]]]; [reflexivity|].
  cbn [world stdout].
  destruct (telegram_post _ w3) as [w4 r2]. reflexivity.
Qed.

(** X19: the aggregation pass absorbs nothing.  When writing summary.txt
    raises, the pass raises that exception and nothing is sent; when the
    notification raises, the pass raises that exception with the file
    written; when the backend raises, the pass writes and sends the title
    line followed by the error text and returns normally. *)
Theorem aggregate_outcomes {W} `{Collaborators W} `{Host W}
    (self : RedditSummarizer) (day_output : str) (st st2 : State W)
    (generated : str) :
  summarize_with_openai
    (collect_summaries_in_folder day_output
       (list_folder day_output (world st))) st
  = (st2, inr (Some generated)) ->
  (forall (w3 : W) (e : Exception),
     open_write (aggregate_path self) (aggregate_title ++ generated)
       (world st2) = (w3, inl e) ->
     aggregate self day_output st
     = ({| world := w3; stdout := stdout st2 |}, inl e))
  /\ (forall (w3 w4 : W) (e : Exception),
        open_write (aggregate_path self) (aggregate_title ++ generated)
          (world st2) = (w3, inr tt) ->
        telegram_post (aggregate_title ++ generated) w3 = (w4, inl e) ->
        aggregate self day_output st
        = ({| world := w4; stdout := stdout st2 |}, inl e))
  /\ (forall (w3 w4 : W),
        open_write (aggregate_path self) (aggregate_title ++ generated)
          (world st2) = (w3, inr tt) ->
        telegram_post (aggregate_title ++ generated) w3 = (w4, inr tt) ->
        aggregate self day_output st
        = ({| world := w4; stdout := stdout st2 |}, inr tt))
  /\ (forall e : Exception,
        snd (backend_call
               (collect_summaries_in_folder day_output
                  (list_folder day_output (world st))) (world st)) = inl e ->
        generated = lit "Error generating summary: " ++ exc_str e).
Proof.
  intros Hs. rewrite aggregate_steps. cbv zeta. rewrite Hs.
  split; [|split; [|split]].
  - intros w3 e ->. reflexivity.
  - intros w3 w4 e -> ->. reflexivity.
  - intros w3 w4 -> ->. reflexivity.
  - intros e He. rewrite summarize_after_backend, He in Hs.
    now injection Hs as _ <-.
Qed.

(** For [ready_host] and the forum of [outage_script]. *)
Lemma main_runs_then_aggregates_witness :
  main (H := scripted outage_script) (H0 := hosted ready_host) start
  = aggregate (H := scripted outage_script) (H0 := hosted ready_host)
      {| output_dir := lit "/srv/output/2023-11-14" |}
      (lit "/srv/output/2023-11-14")
      (after_runs (H := scripted outage_script)
         {| output_dir := lit "/srv/output/2023-11-14" |} SOURCES start).
Proof.
  apply (main_runs_then_aggregates (H := scripted outage_script)
           (H0 := hosted ready_host) start (lit "/srv") [] []).
  - intros var _. reflexivity.
  - reflexivity.
  - reflexivity.
  - reflexivity.
  - reflexivity.
Defined.

(** On that host and forum the whole of [main] returns normally: five
    sources leave two files each, the aggregate is written last from the
    five summaries in the order of their names, and six messages are
    sent. *)
Example main_end_to_end :
  let final := main (H := scripted outage_script) (H0 := hosted ready_host)
                 start in
  snd final = inr tt
  /\ omap (fun ev => match ev with
                     | Wrote path _ => Some path
                     | _ => None
                     end) (world (fst final))
     = flat_map (fun sub => [digest_path summarizer (lit sub);
                             summary_path summarizer (lit sub)])
         ["stocks"; "investing"; "swingtrading"; "StockMarket"; "Economics"]%string
       ++ [aggregate_path summarizer]
  /\ length (omap (fun ev => match ev with Sent _ => Some tt | _ => None end)
               (world (fst final))) = 6
  /\ collect_summaries_in_folder (output_dir summarizer)
       (files_in (output_dir summarizer)
          (world (after_runs (H := scripted outage_script) summarizer SOURCES
                    start)))
     = join [LF; LF]
         (map (fun sub => strip (summary_title (lit sub) ++ lit "1) $TSLA"))
            ["Economics"; "StockMarket"; "investing"; "stocks";
             "swingtrading"]%string).
Proof. vm_compute. repeat split; reflexivity. Qed.

(** For the channel of [muted_script] and a folder without summaries. *)
Lemma aggregate_outcomes_witness :
  snd (aggregate (H := scripted muted_script) (H0 := hosted ready_host)
         summarizer (output_dir summarizer) start)
  = inl channel_down.
Proof.
  destruct (aggregate_outcomes (H := scripted muted_script)
              (H0 := hosted ready_host) summarizer (output_dir summarizer)
              start
              (fst (summarize_with_openai (H := scripted muted_script) []
                      start))
              (lit "1) $TSLA")) as (_ & Hsend & _).
  - vm_compute. reflexivity.
  - rewrite (Hsend
               (world (fst (summarize_with_openai (H := scripted muted_script)
                              [] start))
                ++ [Wrote (aggregate_path summarizer)
                      (aggregate_title ++ lit "1) $TSLA")])
               (world (fst (summarize_with_openai (H := scripted muted_script)
                              [] start))
                ++ [Wrote (aggregate_path summarizer)
                      (aggregate_title ++ lit "1) $TSLA")])
               channel_down); reflexivity.
Defined.

(** ** Edges of the aggregation pass and of the flattener *)

Lemma insert_unusable (x : str * FileRead) (entries : list (str * FileRead)) :
  match snd x with
  | Unreadable _ => True
  | Readable content => strip content = []
  end ->
  List.filter truthy_str (trimmed_contents (insert_by name_le x entries))
  = List.filter truthy_str (trimmed_contents entries).
Proof.
  intros Hx.
  assert (Hhead : forall l,
            List.filter truthy_str (trimmed_contents (x :: l))
            = List.filter truthy_str (trimmed_contents l)).
  { intros l. destruct x as [name [content|e]]; cbn [snd] in Hx;
      cbn [trimmed_contents List.filter]; [now rewrite Hx|reflexivity]. }
  induction entries as [|y entries IH]; cbn [insert_by]; [apply Hhead|].
  destruct (name_le x y); [apply Hhead|].
  destruct y as [n [content|e]]; cbn [trimmed_contents List.filter];
    [|exact IH].
  now rewrite IH.
Qed.

(** X20: a summary artifact that cannot be read, or whose content is blank,
    contributes nothing to the aggregation: the text returned is the one
    the folder gives without that file. *)
Theorem collect_summaries_ignores_unusable (folder name : str)
    (file : FileRead) (dir : Directory) :
  well_formed_dir ((name, file) :: dir) ->
  match file with
  | Unreadable _ => True
  | Readable content => strip content = []
  end ->
  collect_summaries_in_folder folder ((name, file) :: dir)
  = collect_summaries_in_folder folder dir.
Proof.
  intros Hwf Hfile.
  assert (Hwf' : well_formed_dir dir).
  { destruct Hwf as [Hnd Hsep]. cbn [map] in Hnd.
    apply NoDup_cons in Hnd as [_ Hnd].
    apply Forall_cons in Hsep as [_ Hsep]. now split. }
  rewrite (collect_summaries_sorted folder _ Hwf),
    (collect_summaries_sorted folder dir Hwf').
  f_equal. unfold summary_entries. cbn [List.filter fst].
  destruct (is_summary_name name); [|reflexivity].
  cbn [sorted]. now apply insert_unusable.
Qed.

(** For the day's folder with an unreadable summary put in front. *)
Lemma collect_summaries_ignores_unusable_witness :
  collect_summaries_in_folder (output_dir summarizer)
    ((lit "investing-summary.txt",
      Unreadable {| exc_str := lit "Permission denied" |})
     :: day_folder (Readable padded_stocks) (Readable (lit "2) buy")))
  = collect_summaries_in_folder (output_dir summarizer)
      (day_folder (Readable padded_stocks) (Readable (lit "2) buy"))).
Proof.
  apply collect_summaries_ignores_unusable.
  - split.
    + repeat constructor; cbn; rewrite ?list_elem_of_In; cbn;
        intuition discriminate.
    + repeat constructor; cbn; intuition discriminate.
  - exact I.
Defined.

Lemma collect_comments_full (nodes tail : list CommentNode) :
  forall comments : list str,
    length comments < POST_MAX_COMMENTS ->
    length (collect_comments nodes comments) = POST_MAX_COMMENTS ->
    collect_comments (nodes ++ tail) comments
    = collect_comments nodes comments.
Proof.
  induction nodes as [|c nodes IH]; intros comments Hacc Hfull;
    cbn [collect_comments app] in *; [lia|].
  destruct c as [body| |e]; [|now apply IH|lia].
  destruct (truthy_str body); [|now apply IH].
  destruct (Nat.leb_spec POST_MAX_COMMENTS
              (length (comments ++ [strip (join [SP] (splitlines body))])))
    as [Hcap|Hroom]; [reflexivity|now apply IH].
Qed.

(** X21: once 21 bodies are collected the flattener looks no further: a
    tree that gives 21 bodies gives the same 21 whatever follows in the
    traversal, including nodes whose access would raise. *)
Theorem flattener_stops_at_cap (first : CommentNode)
    (nodes tail : list CommentNode) :
  length (get_submission_comments
            {| replace_more_raises := None;
               list_result := inr (first :: nodes) |})
  = POST_MAX_COMMENTS ->
  get_submission_comments
    {| replace_more_raises := None;
       list_result := inr (first :: nodes ++ tail) |}
  = get_submission_comments
      {| replace_more_raises := None;
         list_result := inr (first :: nodes) |}.
Proof.
  unfold get_submission_comments.
  cbn [replace_more_raises list_result slice_from1 skipn].
  apply collect_comments_full. unfold POST_MAX_COMMENTS. cbn. lia.
Qed.

(** For 21 comments followed by a node whose access raises. *)
Lemma flattener_stops_at_cap_witness :
  get_submission_comments
    {| replace_more_raises := None;
       list_result :=
         inr (NoBody :: repeat (WithBody (lit "hold")) 21
              ++ [Failing outage]) |}
  = repeat (lit "hold") 21.
Proof.
  rewrite (flattener_stops_at_cap NoBody
             (repeat (WithBody (lit "hold")) 21) [Failing outage]);
    reflexivity.
Defined.
